(** * formu: a two-stage form builder (src/app/page.tsx)

    The page holds two react-hook-form forms.  [inputCreatorForm] collects a
    label, a default value and a type; accepting it appends a descriptor to
    the field array [inputs] of [createdForm].  The generated form renders one
    row per descriptor with a Remove button, a Move button when there are at
    least two rows, and a Submit button when there is at least one row.

    The file embeds the extended variant of the page (the one with [swap] and
    [onCreatedFormSubmit]).  Event handlers become functions on an explicit
    [State]; the JSX becomes [render], the list of controls on the page.
    What react-hook-form, zod, the radio group and the browser contribute to
    an event is written out where the handlers need it. *)

From stdpp Require Import base option list strings.

Set Warnings "-clear-no-such-hyp".


(** ** Data model *)

(** [INPUT_TYPES = ["text", "number", "email", "password"] as const]. *)
Inductive InputType := text | number | email | password.

Definition INPUT_TYPES : list InputType := [text; number; email; password].

(** The string literal of each member of the union. *)
Definition literal (t : InputType) : string :=
  match t with
  | text => "text"
  | number => "number"
  | email => "email"
  | password => "password"
  end.

#[global] Instance InputType_eq_dec : EqDecision InputType.
Proof. solve_decision. Defined.

(** One element of [createdFormSchema]'s [inputs] array. *)
Record Input := { label : string; value : string; type : InputType }.

#[global] Instance Input_eq_dec : EqDecision Input.
Proof. solve_decision. Defined.

(** [CreatedFormFields = z.infer<typeof createdFormSchema>]. *)
Module Created.
Record Fields := { inputs : list Input }.
End Created.

(** [InputCreatorFormFields = z.infer<typeof inputCreatorSchema>]. *)
Module Creator.
Record Fields :=
  { label : string; defaultValue : option string; type : InputType }.
End Creator.

(** ** The zod schemas *)

Module Zod.

(** The issue codes the two schemas can raise. *)
Inductive Issue := invalid_type | too_small | invalid_union | invalid_literal.

#[global] Instance Issue_eq_dec : EqDecision Issue.
Proof. solve_decision. Defined.

(** [z.string()] on a value that is already a string. *)
Definition string_ (s : string) : option Issue := None.

(** [z.string().min(1)] on a string. *)
Definition string_min1 (s : string) : option Issue :=
  if (String.length s <? 1)%nat then Some too_small else None.

(** [z.string().min(1)] on a form value, [None] being [undefined]. *)
Definition required_string_min1 (raw : option string) : Issue + string :=
  match raw with
  | None => inl invalid_type
  | Some s => match string_min1 s with Some i => inl i | None => inr s end
  end.

(** [z.string().optional()]. *)
Definition string_optional (raw : option string) : Issue + option string :=
  inr raw.

(** [z.union([z.literal("text"), ..., z.literal("password")])]. *)
Definition type_union (s : string) : Issue + InputType :=
  match list_find (λ t, literal t = s) INPUT_TYPES with
  | Some (_, t) => inr t
  | None => inl invalid_union
  end.

(** [z.union([...]).default("text")]: [undefined] parses as ["text"]. *)
Definition type_union_default (raw : option string) : Issue + InputType :=
  match raw with
  | None => inr text
  | Some s => type_union s
  end.

(** The code [zodResolver] stores for an issue: the issue's own code, and
    for a failed union the code of the first issue of its first member,
    here [z.literal("text")]. *)
Definition resolver_code (i : Issue) : Issue :=
  match i with
  | invalid_union => invalid_literal
  | _ => i
  end.

End Zod.

(** The error [zodResolver] stores for a field check, if any. *)
Definition issue_of {A} (r : Zod.Issue + A) : option Zod.Issue :=
  match r with inl i => Some (Zod.resolver_code i) | inr _ => None end.

(** The values of [inputCreatorForm] before validation; [None] is
    [undefined]. *)
Record CreatorValues :=
  { v_label : option string;
    v_defaultValue : option string;
    v_type : option string }.

(** [inputCreatorForm.formState.errors]. *)
Record CreatorErrors :=
  { e_label : option Zod.Issue;
    e_defaultValue : option Zod.Issue;
    e_type : option Zod.Issue }.

Definition no_creator_errors : CreatorErrors :=
  {| e_label := None; e_defaultValue := None; e_type := None |}.

(** [zodResolver(inputCreatorSchema)]: every field is checked, and the data
    is produced only when none of them raised an issue. *)
Definition inputCreatorSchema (v : CreatorValues) : CreatorErrors + Creator.Fields :=
  match Zod.required_string_min1 (v_label v),
        Zod.string_optional (v_defaultValue v),
        Zod.type_union_default (v_type v) with
  | inr l, inr d, inr t =>
      inr {| Creator.label := l; Creator.defaultValue := d; Creator.type := t |}
  | rl, rd, rt =>
      inl {| e_label := issue_of rl;
             e_defaultValue := issue_of rd;
             e_type := issue_of rt |}
  end.

(** The errors the resolver finds in the collector's values, none when it
    accepts them. *)
Definition resolver_errors (v : CreatorValues) : CreatorErrors :=
  match inputCreatorSchema v with
  | inl errors => errors
  | inr _ => no_creator_errors
  end.

(** [createdForm.formState.errors.inputs[index]]. *)
Record InputErrors :=
  { e_input_label : option Zod.Issue;
    e_input_value : option Zod.Issue }.

#[global] Instance InputErrors_eq_dec : EqDecision InputErrors.
Proof. solve_decision. Defined.

(** The element schema of [createdFormSchema]: [label: z.string().min(1)],
    [value: z.string()], [type: z.enum(INPUT_TYPES)]; the type of a
    descriptor is a member of [INPUT_TYPES] already. *)
Definition check_input (input : Input) : InputErrors :=
  {| e_input_label := Zod.string_min1 (label input);
     e_input_value := Zod.string_ (value input) |}.

Definition input_ok (e : InputErrors) : bool :=
  bool_decide (e_input_label e = None) && bool_decide (e_input_value e = None).

(** [zodResolver(createdFormSchema)] on the current field array. *)
Definition createdFormSchema (inputs : list Input) : list InputErrors + Created.Fields :=
  let errors := check_input <$> inputs in
  if forallb input_ok errors
  then inr {| Created.inputs := inputs |}
  else inl errors.

(** ** The native inputs

    Every field of the page is a native [<input>]; the row of an input has
    [type={input.type}], and neither form has [noValidate].  So the browser
    decides what text a field reports to [onChange], and it checks the
    fields of a form before it lets a click on its submit button reach
    [onSubmit].  A single-line field holds no line break; the text of an
    event is taken to hold none. *)

Module Browser.

Definition code (c : Ascii.ascii) : nat := Ascii.nat_of_ascii c.

Definition is_digit (c : Ascii.ascii) : bool := bool_decide (48 ≤ code c ≤ 57).

Definition is_alpha (c : Ascii.ascii) : bool :=
  bool_decide (65 ≤ code c ≤ 90) || bool_decide (97 ≤ code c ≤ 122).

Definition is_alnum (c : Ascii.ascii) : bool := is_digit c || is_alpha c.

(** ASCII whitespace: tab, line feed, form feed, carriage return, space. *)
Definition is_space (c : Ascii.ascii) : bool :=
  bool_decide (code c ∈ [9; 10; 12; 13; 32]).

(** The characters an e-mail address may have before the [@], the dot
    apart: letters, digits and [!#$%&'*+-/=?^_`{|}~]. *)
Definition is_atext (c : Ascii.ascii) : bool :=
  is_alnum c
  || bool_decide (code c ∈ [33; 35; 36; 37; 38; 39; 42; 43; 45; 47; 61; 63;
                            94; 95; 96; 123; 124; 125; 126]).

Definition chars (s : string) : list Ascii.ascii := String.list_ascii_of_string s.

Definition text_of (l : list Ascii.ascii) : string := String.string_of_list_ascii l.

(** Strip leading and trailing ASCII whitespace. *)
Fixpoint trim_left (l : list Ascii.ascii) : list Ascii.ascii :=
  match l with
  | c :: r => if is_space c then trim_left r else l
  | [] => []
  end.

Definition trim (s : string) : string :=
  text_of (reverse (trim_left (reverse (trim_left (chars s))))).

(** One or more digits, then the rest. *)
Fixpoint skip_digits (l : list Ascii.ascii) : list Ascii.ascii :=
  match l with
  | c :: r => if is_digit c then skip_digits r else l
  | [] => []
  end.

Definition digits1 (l : list Ascii.ascii) : option (list Ascii.ascii) :=
  match l with
  | c :: r => if is_digit c then Some (skip_digits r) else None
  | [] => None
  end.

(** A valid floating-point number: an optional [-]; digits, optionally
    followed by a dot and digits, or a dot and digits; optionally [e] or
    [E], an optional sign and digits. *)
Definition valid_float (s : string) : bool :=
  let l := match chars s with
           | c :: r => if bool_decide (code c = 45) then r else c :: r
           | [] => []
           end in
  let after_mantissa :=
    match l with
    | c :: r =>
        if bool_decide (code c = 46) then digits1 r
        else match digits1 l with
             | Some (c' :: r') =>
                 if bool_decide (code c' = 46) then digits1 r' else Some (c' :: r')
             | o => o
             end
    | [] => None
    end in
  match after_mantissa with
  | None => false
  | Some [] => true
  | Some (c :: r) =>
      if bool_decide (code c ∈ [69; 101])
      then let r' := match r with
                     | c' :: r'' => if bool_decide (code c' ∈ [43; 45]) then r'' else r
                     | [] => []
                     end in
           match digits1 r' with Some [] => true | _ => false end
      else false
  end.

(** Split at every occurrence of the character with the given code. *)
Fixpoint split_at (sep : nat) (l : list Ascii.ascii) : list (list Ascii.ascii) :=
  match l with
  | [] => [[]]
  | c :: r =>
      match split_at sep r with
      | part :: parts =>
          if bool_decide (code c = sep) then [] :: part :: parts
          else (c :: part) :: parts
      | [] => [[c]]
      end
  end.

(** A label of a domain: 1 to 63 letters, digits or hyphens, with no hyphen
    first or last. *)
Definition valid_label (l : list Ascii.ascii) : bool :=
  bool_decide (1 ≤ length l ≤ 63)
  && forallb (λ c, is_alnum c || bool_decide (code c = 45)) l
  && from_option is_alnum false (head l)
  && from_option is_alnum false (last l).

(** A valid e-mail address: one or more of the characters above or dots,
    [@], and one or more labels separated by dots. *)
Definition valid_email (s : string) : bool :=
  match split_at 64 (chars s) with
  | [local; domain] =>
      bool_decide (local ≠ [])
      && forallb (λ c, is_atext c || bool_decide (code c = 46)) local
      && forallb valid_label (split_at 46 domain)
  | _ => false
  end.

(** The value a field of the given type reports for the text typed into it
    ([event.target.value]): an e-mail field strips the whitespace around it,
    a number field reports a valid floating-point number as typed and the
    empty string for any other text. *)
Definition reported (t : InputType) (s : string) : string :=
  match t with
  | text | password => s
  | email => trim s
  | number => if valid_float s then s else ""
  end.

(** Whether the browser, checking the field of a row before a submit, finds
    its value in order.  No field is required, so the empty value is; an
    e-mail field must otherwise hold an e-mail address; the value of a number
    field is a number or empty by then, and the steps of a number field are
    counted from its [value] attribute, which React keeps equal to the value
    of a controlled input, so no number is off the step.  What a number
    field may hold beyond its value (text that is no number) is not in the
    form's values and is left out here. *)
Definition native_valid (d : Input) : bool :=
  match type d with
  | text | password | number => true
  | email =>
      let v := trim (value d) in
      bool_decide (v = "") || valid_email v
  end.

End Browser.

(** ** The field array

    [append], [remove] and [swap] are the methods [useFieldArray] of
    react-hook-form returns; the library's code is not part of the
    repository.  The page calls [remove] and [swap] only with positions of
    rows it has rendered (see [render] below).  What the library does with a
    position outside the array is not described here: there the model gives
    no result ([None]). *)

Module FieldArray.
Section Methods.
Context {A : Type}.

(** Modelled from the spec: [append] of [useFieldArray], whose code is
    absent; "adds to the end". *)
Definition append (fields : list A) (v : A) : list A := fields ++ [v].

(** Modelled from the spec: [remove] of [useFieldArray], whose code is
    absent; "deletes the descriptor at position index (0-based)", and
    "indices of subsequent elements shift down by one". *)
Definition remove (fields : list A) (index : nat) : option (list A) :=
  match fields !! index with
  | Some _ => Some (delete index fields)
  | None => None
  end.

(** Modelled from the spec: [swap] of [useFieldArray], whose code is
    absent; "exchanges the two descriptors' positions". *)
Definition swap (fields : list A) (indexA indexB : nat) : option (list A) :=
  match fields !! indexA, fields !! indexB with
  | Some a, Some b => Some (<[indexA := b]> (<[indexB := a]> fields))
  | _, _ => None
  end.
End Methods.
End FieldArray.

(** ** What the toast shows *)

Inductive Node := Text (s : string) | Strong (s : string).

#[global] Instance Node_eq_dec : EqDecision Node.
Proof. solve_decision. Defined.

(** The children of the paragraph [formatCreatedFormData] returns: for each
    input a fragment with [", "] before every one but the first, the label in
    bold, [": "] and the value. *)
Definition formatCreatedFormData (data : Created.Fields) : list Node :=
  concat (imap (λ index input,
                  (if bool_decide (index ≠ 0) then [Text ", "] else [])
                  ++ [Strong (label input); Text ": "; Text (value input)])
               (Created.inputs data)).

Record Toast := { heading : string; body : list Node }.

(** ** Page state *)

Record State :=
  { creatorValues : CreatorValues;        (* values of inputCreatorForm *)
    creatorErrors : CreatorErrors;        (* inputCreatorForm.formState.errors *)
    creatorSubmitted : bool;              (* inputCreatorForm.formState.isSubmitted *)
    radio : InputType;                    (* the item the radio group has checked *)
    inputs : list Input;                  (* the field array of createdForm *)
    createdErrors : list InputErrors;     (* errors.inputs, as the last handleSubmit left them *)
    toasts : list Toast }.                (* what was handed to toast(), oldest first *)

(** [useForm({ defaultValues: { type: "text" } })]. *)
Definition defaultValues : CreatorValues :=
  {| v_label := None; v_defaultValue := None; v_type := Some "text" |}.

(** The page as it is mounted: the collector holds its default values, the
    radio group checks [defaultValue={field.value}], [createdForm] is
    empty. *)
Definition initial : State :=
  {| creatorValues := defaultValues;
     creatorErrors := no_creator_errors;
     creatorSubmitted := false;
     radio := text;
     inputs := [];
     createdErrors := [];
     toasts := [] |}.

Definition set_inputs (st : State) (l : list Input) : State :=
  {| creatorValues := creatorValues st; creatorErrors := creatorErrors st;
     creatorSubmitted := creatorSubmitted st; radio := radio st;
     inputs := l; createdErrors := createdErrors st; toasts := toasts st |}.

Definition set_creatorValues (st : State) (v : CreatorValues) : State :=
  {| creatorValues := v; creatorErrors := creatorErrors st;
     creatorSubmitted := creatorSubmitted st; radio := radio st;
     inputs := inputs st; createdErrors := createdErrors st; toasts := toasts st |}.

Definition set_creatorErrors (st : State) (e : CreatorErrors) : State :=
  {| creatorValues := creatorValues st; creatorErrors := e;
     creatorSubmitted := creatorSubmitted st; radio := radio st;
     inputs := inputs st; createdErrors := createdErrors st; toasts := toasts st |}.

Definition set_creatorSubmitted (st : State) (b : bool) : State :=
  {| creatorValues := creatorValues st; creatorErrors := creatorErrors st;
     creatorSubmitted := b; radio := radio st;
     inputs := inputs st; createdErrors := createdErrors st; toasts := toasts st |}.

Definition set_radio (st : State) (t : InputType) : State :=
  {| creatorValues := creatorValues st; creatorErrors := creatorErrors st;
     creatorSubmitted := creatorSubmitted st; radio := t;
     inputs := inputs st; createdErrors := createdErrors st; toasts := toasts st |}.

Definition set_createdErrors (st : State) (e : list InputErrors) : State :=
  {| creatorValues := creatorValues st; creatorErrors := creatorErrors st;
     creatorSubmitted := creatorSubmitted st; radio := radio st;
     inputs := inputs st; createdErrors := e; toasts := toasts st |}.

(** ** Handlers *)

(** [append(input)] on the field array of [createdForm]. *)
Definition append (input : Input) (st : State) : State :=
  set_inputs st (FieldArray.append (inputs st) input).

(** [inputCreatorForm.reset(values)]: the form takes the values given, a
    field they do not list going back to its default value; the errors are
    cleared and the form counts as not submitted again.  The radio group is
    not part of the form's state and keeps the item it has checked. *)
Definition inputCreatorForm_reset (values : CreatorValues) (st : State) : State :=
  set_creatorSubmitted
    (set_creatorErrors
       (set_creatorValues st
          {| v_label := from_option Some (v_label defaultValues) (v_label values);
             v_defaultValue :=
               from_option Some (v_defaultValue defaultValues) (v_defaultValue values);
             v_type := from_option Some (v_type defaultValues) (v_type values) |})
       no_creator_errors)
    false.

(** [toast(content)]. *)
Definition toast (content : Toast) (st : State) : State :=
  {| creatorValues := creatorValues st; creatorErrors := creatorErrors st;
     creatorSubmitted := creatorSubmitted st; radio := radio st;
     inputs := inputs st; createdErrors := createdErrors st;
     toasts := toasts st ++ [content] |}.

(** [onCreateInput]: [append({ label, value: defaultValue ?? "", type })],
    then [inputCreatorForm.reset({ label: "", defaultValue: "" })]. *)
Definition onCreateInput (data : Creator.Fields) (st : State) : State :=
  let st1 :=
    append {| label := Creator.label data;
              value := default "" (Creator.defaultValue data);
              type := Creator.type data |} st in
  inputCreatorForm_reset
    {| v_label := Some ""; v_defaultValue := Some ""; v_type := None |} st1.

(** [inputCreatorForm.handleSubmit(onCreateInput)]: the form counts as
    submitted; when the resolver raises nothing the errors are emptied and
    the handler runs on the parsed data; otherwise the errors are stored and
    the handler does not run. *)
Definition inputCreatorForm_handleSubmit (st : State) : State :=
  let st1 := set_creatorSubmitted st true in
  match inputCreatorSchema (creatorValues st) with
  | inr data => onCreateInput data (set_creatorErrors st1 no_creator_errors)
  | inl errors => set_creatorErrors st1 errors
  end.

(** [field.onChange] of [label]: the value is stored and, once the form has
    been submitted, the field is validated again ([reValidateMode] is
    [onChange]) and its error replaced. *)
Definition onChange_label (s : string) (st : State) : State :=
  let v := {| v_label := Some s;
              v_defaultValue := v_defaultValue (creatorValues st);
              v_type := v_type (creatorValues st) |} in
  let st1 := set_creatorValues st v in
  if creatorSubmitted st
  then set_creatorErrors st1
         {| e_label := e_label (resolver_errors v);
            e_defaultValue := e_defaultValue (creatorErrors st);
            e_type := e_type (creatorErrors st) |}
  else st1.

(** [field.onChange] of [defaultValue]. *)
Definition onChange_defaultValue (s : string) (st : State) : State :=
  let v := {| v_label := v_label (creatorValues st);
              v_defaultValue := Some s;
              v_type := v_type (creatorValues st) |} in
  let st1 := set_creatorValues st v in
  if creatorSubmitted st
  then set_creatorErrors st1
         {| e_label := e_label (creatorErrors st);
            e_defaultValue := e_defaultValue (resolver_errors v);
            e_type := e_type (creatorErrors st) |}
  else st1.

(** [field.onChange] of [type]. *)
Definition onChange_type (s : string) (st : State) : State :=
  let v := {| v_label := v_label (creatorValues st);
              v_defaultValue := v_defaultValue (creatorValues st);
              v_type := Some s |} in
  let st1 := set_creatorValues st v in
  if creatorSubmitted st
  then set_creatorErrors st1
         {| e_label := e_label (creatorErrors st);
            e_defaultValue := e_defaultValue (creatorErrors st);
            e_type := e_type (resolver_errors v) |}
  else st1.

(** A click on a radio item.  The group keeps its own checked item, set from
    [defaultValue] when it is mounted, and calls
    [onValueChange={field.onChange}] only when the item checked changes: a
    click on the item already checked does nothing. *)
Definition onRadioClick (t : InputType) (st : State) : State :=
  if decide (t = radio st) then st
  else onChange_type (literal t) (set_radio st t).

(** [onCreatedFormSubmit]: one toast, titled "Answers submitted!", with the
    formatted data. *)
Definition onCreatedFormSubmit (data : Created.Fields) (st : State) : State :=
  toast {| heading := "Answers submitted!";
           body := formatCreatedFormData data |} st.

(** [createdForm.handleSubmit(onCreatedFormSubmit)]. *)
Definition createdForm_handleSubmit (st : State) : State :=
  match createdFormSchema (inputs st) with
  | inr data => onCreatedFormSubmit data (set_createdErrors st [])
  | inl errors => set_createdErrors st errors
  end.

(** A click on the Submit button of the generated form: the browser checks
    the fields of the rows first, and [onSubmit] runs only when it finds
    them all in order; otherwise nothing of the page's state changes. *)
Definition createdForm_submit (st : State) : State :=
  if forallb Browser.native_valid (inputs st)
  then createdForm_handleSubmit st
  else st.

(** ** The rendered controls *)

Inductive Caption := MoveDown | MoveUp.

#[global] Instance Caption_eq_dec : EqDecision Caption.
Proof. solve_decision. Defined.

(** A button carries the arguments its [onClick] closure captured. *)
Inductive Control :=
| LabelInput
| LabelMessage (i : Zod.Issue)
| DefaultValueInput
| DefaultValueMessage (i : Zod.Issue)
| TypeRadio (t : InputType)
| TypeMessage (i : Zod.Issue)
| AddButton
| ValueInput (index : nat) (t : InputType)
| RemoveButton (index : nat)
| MoveButton (c : Caption) (indexA indexB : nat)
| ValueMessage (index : nat) (i : Zod.Issue)
| SubmitButton.

#[global] Instance Control_eq_dec : EqDecision Control.
Proof. solve_decision. Defined.

(** [{cond && <FormMessage>...</FormMessage>}]. *)
Definition message (mk : Zod.Issue → Control) (e : option Zod.Issue) : list Control :=
  match e with Some i => [mk i] | None => [] end.

Definition render_creator (st : State) : list Control :=
  [LabelInput] ++ message LabelMessage (e_label (creatorErrors st))
  ++ [DefaultValueInput]
  ++ message DefaultValueMessage (e_defaultValue (creatorErrors st))
  ++ (TypeRadio <$> INPUT_TYPES) ++ message TypeMessage (e_type (creatorErrors st))
  ++ [AddButton].

(** The Move button of row [index]:
    [swap(index, index === 0 ? inputs.length - 1 : index - 1)]. *)
Definition move_button (inputs : list Input) (index : nat) : Control :=
  MoveButton (if bool_decide (index = 0) then MoveDown else MoveUp)
             index
             (if bool_decide (index = 0) then length inputs - 1 else index - 1).

(** One [<li>] of [inputs.map((input, index) => ...)]. *)
Definition render_row (st : State) (index : nat) (input : Input) : list Control :=
  [ValueInput index (type input); RemoveButton index]
  ++ (if bool_decide (1 < length (inputs st))
      then [move_button (inputs st) index] else [])
  ++ message (ValueMessage index) (createdErrors st !! index ≫= e_input_value).

Definition render_created (st : State) : list Control :=
  mjoin (imap (render_row st) (inputs st))
  ++ (if bool_decide (0 < length (inputs st)) then [SubmitButton] else []).

Definition render (st : State) : list Control :=
  render_creator st ++ render_created st.

(** ** Events *)

(** A click on a control, or text typed into one. *)
Inductive Event :=
| Click (c : Control)
| Change (c : Control) (s : string).

Definition control_of (ev : Event) : Control :=
  match ev with Click c => c | Change c _ => c end.

(** The event acts on a control that is on the page. *)
Definition offered (st : State) (ev : Event) : Prop :=
  control_of ev ∈ render st.

#[global] Instance offered_dec st ev : Decision (offered st ev).
Proof. unfold offered. apply _. Defined.

(** [field.onChange] of [inputs.${index}.value]: only the value of the row
    is overwritten, with what the row's field reports for the text typed. *)
Definition updateValue (inputs : list Input) (index : nat) (s : string) : option (list Input) :=
  match inputs !! index with
  | Some input =>
      Some (<[index := {| label := label input;
                          value := Browser.reported (type input) s;
                          type := type input |}]> inputs)
  | None => None
  end.

(** The handler attached to each control.  [None] only where a field-array
    method is used outside the array. *)
Definition step (st : State) (ev : Event) : option State :=
  match ev with
  | Change LabelInput s => Some (onChange_label s st)
  | Change DefaultValueInput s => Some (onChange_defaultValue s st)
  | Click (TypeRadio t) => Some (onRadioClick t st)
  | Click AddButton => Some (inputCreatorForm_handleSubmit st)
  | Change (ValueInput index _) s =>
      set_inputs st <$> updateValue (inputs st) index s
  | Click (RemoveButton index) =>
      set_inputs st <$> FieldArray.remove (inputs st) index
  | Click (MoveButton _ indexA indexB) =>
      set_inputs st <$> FieldArray.swap (inputs st) indexA indexB
  | Click SubmitButton => Some (createdForm_submit st)
  | _ => Some st
  end.

(** Events are handled one at a time, each against the page as the previous
    one left it. *)
Fixpoint run (st : State) (evs : list Event) : option State :=
  match evs with
  | [] => Some st
  | ev :: evs' =>
      if decide (offered st ev)
      then match step st ev with Some st' => run st' evs' | None => None end
      else None
  end.

(** The states a user can bring the page to. *)
Inductive reachable : State → Prop :=
| reachable_initial : reachable initial
| reachable_step st ev st' :
    reachable st → offered st ev → step st ev = Some st' → reachable st'.

(** ** Vocabulary of the statements *)

(** [l'] is [l] with the elements at [a] and [b] exchanged and nothing else
    moved. *)
Definition exchanged {A} (l l' : list A) (a b : nat) : Prop :=
  length l' = length l
  ∧ l' !! a = l !! b
  ∧ l' !! b = l !! a
  ∧ ∀ i, i ≠ a → i ≠ b → l' !! i = l !! i.

(** [l'] is [l] with the element at [i] deleted: the elements before [i]
    stay, those after it move down by one. *)
Definition deleted_at {A} (l l' : list A) (i : nat) : Prop :=
  length l' = length l - 1
  ∧ (∀ j, j < i → l' !! j = l !! j)
  ∧ (∀ j, i ≤ j → l' !! j = l !! S j).


(** The scenario of the specification, up to the submit: two descriptors are
    collected, then the first one's value is typed in. *)
Definition scenario : list Event :=
  [ Change LabelInput "Name"; Click AddButton;
    Change LabelInput "Age"; Change DefaultValueInput "0";
    Click (TypeRadio number); Click AddButton;
    Change (ValueInput 0 text) "Ada" ].

(** Every descriptor has a non-empty label. *)
Definition labels_nonempty (l : list Input) : Prop :=
  Forall (λ d, label d ≠ "") l.

#[global] Instance labels_nonempty_dec l : Decision (labels_nonempty l).
Proof. unfold labels_nonempty. apply _. Defined.


(** The values [inputCreatorForm.reset] leaves behind: the two it is given
    and the default type. *)
Definition blank : CreatorValues :=
  {| v_label := Some ""; v_defaultValue := Some ""; v_type := Some "text" |}.


(** The browser finds the field of every row in order. *)
Definition browser_passes (l : list Input) : Prop :=
  forallb Browser.native_valid l = true.

#[global] Instance browser_passes_dec l : Decision (browser_passes l).
Proof. unfold browser_passes. apply _. Defined.

(** No number row has the empty value.  (An empty value of a number row may
    stand for text the field could not read as a number, which the browser
    holds against the row.) *)
Definition no_empty_number (l : list Input) : Prop :=
  Forall (λ d, type d = number → value d ≠ "") l.

#[global] Instance no_empty_number_dec l : Decision (no_empty_number l).
Proof. unfold no_empty_number. apply _. Defined.


(** The toast [onCreatedFormSubmit] shows for a list of inputs. *)
Definition answers (l : list Input) : Toast :=
  {| heading := "Answers submitted!";
     body := formatCreatedFormData {| Created.inputs := l |} |}.


(** ** Sample pages *)

Definition row (l v : string) (t : InputType) : Input :=
  {| label := l; value := v; type := t |}.

(** A page whose generated form holds the given rows. *)
Definition page_with (l : list Input) : State := set_inputs initial l.

Definition rows_ABC : list Input :=
  [row "A" "1" text; row "B" "" email; row "C" "3" number].


(** The page with the collector's three fields filled in as given. *)
Definition typed (st : State) (l d t : option string) : State :=
  set_creatorValues st {| v_label := l; v_defaultValue := d; v_type := t |}.


(** ** The type radios *)

(** The lucide icons the radios use. *)
Inductive LucideIcon := PencilLine | Hash | Mail | AsteriskSquare.

#[global] Instance LucideIcon_eq_dec : EqDecision LucideIcon.
Proof. solve_decision. Defined.

(** [InputTypesIcons: Record<(typeof INPUT_TYPES)[number], LucideIcon>]. *)
Definition InputTypesIcons (t : InputType) : LucideIcon :=
  match t with
  | text => PencilLine
  | number => Hash
  | email => Mail
  | password => AsteriskSquare
  end.

(** A string of ASCII characters only.  On such strings the characters of
    the model are the UTF-16 units of the JavaScript string. *)
Definition ascii_only (s : string) : Prop :=
  Forall (λ c, Ascii.nat_of_ascii c < 128) (String.list_ascii_of_string s).

#[global] Instance ascii_only_dec s : Decision (ascii_only s).
Proof. unfold ascii_only. apply _. Defined.

(** [toUpperCase] on one ASCII character: [a]..[z] go to [A]..[Z]. *)
Definition upper (c : Ascii.ascii) : Ascii.ascii :=
  let n := Ascii.nat_of_ascii c in
  if bool_decide (97 ≤ n ≤ 122) then Ascii.ascii_of_nat (n - 32) else c.

(** [String.prototype.toUpperCase], on ASCII strings. *)
Fixpoint toUpperCase (s : string) : string :=
  match s with
  | EmptyString => EmptyString
  | String c rest => String (upper c) (toUpperCase rest)
  end.

(** [string.charAt(index)]: the character there as a string, or [""]. *)
Definition charAt (s : string) (index : nat) : string :=
  String.substring index 1 s.

(** [string.slice(start)]: from [start] to the end. *)
Definition slice (s : string) (start : nat) : string :=
  String.substring start (String.length s - start) s.

(** [capitalizeFirstLetter]:
    [string.charAt(0).toUpperCase() + string.slice(1)]. *)
Definition capitalizeFirstLetter (s : string) : string :=
  String.append (toUpperCase (charAt s 0)) (slice s 1).

(** What one [<RadioGroupItem>] of [INPUT_TYPES.map] shows beside the radio:
    the icon of the type and its capitalized name. *)
Definition radio_label (t : InputType) : LucideIcon * string :=
  (InputTypesIcons t, capitalizeFirstLetter (literal t)).

(** ** More vocabulary *)

(** The page the scenario ends on. *)
Definition scenario_page : State :=
  {| creatorValues := blank;
     creatorErrors := no_creator_errors;
     creatorSubmitted := false;
     radio := number;
     inputs := [row "Name" "Ada" text; row "Age" "0" number];
     createdErrors := [];
     toasts := [] |}.

(** The text a list of nodes reads as. *)
Definition textContent (nodes : list Node) : string :=
  String.concat "" ((λ n, match n with Text s => s | Strong s => s end) <$> nodes).

(** The bold parts of a list of nodes, in order. *)
Definition strongs (nodes : list Node) : list string :=
  omap (λ n, match n with Strong s => Some s | Text _ => None end) nodes.

(** How one input reads in the toast. *)
Definition entry (d : Input) : string :=
  String.append (label d) (String.append ": " (value d)).

(** The controls of the generated form, as opposed to the collector's. *)
Definition of_generated_form (c : Control) : bool :=
  match c with
  | ValueInput _ _ | RemoveButton _ | MoveButton _ _ _
  | ValueMessage _ _ | SubmitButton => true
  | _ => false
  end.

(** The type the collector holds is unset or the literal of a radio. *)
Definition type_from_radio (v : CreatorValues) : Prop :=
  v_type v = None ∨ ∃ t, v_type v = Some (literal t).

(** What holds of every page a user can reach (see [reachable_page_inv]). *)
Definition page_inv (st : State) : Prop :=
  labels_nonempty (inputs st)
  ∧ createdErrors st = []
  ∧ type_from_radio (creatorValues st)
  ∧ e_type (creatorErrors st) = None
  ∧ e_defaultValue (creatorErrors st) = None.

(** * Properties *)

(** The handlers of the collector's fields, case by case. *)
Ltac unfold_collector :=
  unfold onRadioClick, onChange_type, onChange_label, onChange_defaultValue;
  repeat case_decide;
  repeat match goal with
    | |- context [if creatorSubmitted ?s then _ else _] =>
        destruct (creatorSubmitted s)
    end;
  simpl.

(** ** Which controls are on the page *)

Lemma elem_of_message mk e c :
  c ∈ message mk e ↔ ∃ i, e = Some i ∧ c = mk i.
Proof.
  destruct e as [i|]; simpl.
  - rewrite list_elem_of_singleton. naive_solver.
  - rewrite elem_of_nil. naive_solver.
Qed.

Lemma elem_of_render_created st c :
  c ∈ render_created st ↔
    (∃ index input, inputs st !! index = Some input ∧ c ∈ render_row st index input)
    ∨ (0 < length (inputs st) ∧ c = SubmitButton).
Proof.
  unfold render_created. rewrite elem_of_app, list_elem_of_join.
  assert (c ∈ (if bool_decide (0 < length (inputs st))
               then [SubmitButton] else [])
          ↔ 0 < length (inputs st) ∧ c = SubmitButton) as ->.
  { case_bool_decide.
    - rewrite list_elem_of_singleton. naive_solver.
    - rewrite elem_of_nil. naive_solver. }
  split.
  - intros [(row & Hc & Hrow)|?]; [left|by right].
    apply elem_of_lookup_imap in Hrow as (index & input & -> & Hlook). eauto.
  - intros [(index & input & Hlook & Hc)|?]; [left|by right].
    exists (render_row st index input).
    split; [done|]. by apply elem_of_lookup_imap_2.
Qed.

Lemma elem_of_render_row st index input c :
  c ∈ render_row st index input ↔
    c = ValueInput index (type input)
    ∨ c = RemoveButton index
    ∨ (1 < length (inputs st) ∧ c = move_button (inputs st) index)
    ∨ (∃ i, createdErrors st !! index ≫= e_input_value = Some i
            ∧ c = ValueMessage index i).
Proof.
  unfold render_row. rewrite !elem_of_app, elem_of_message.
  rewrite elem_of_cons, list_elem_of_singleton.
  case_bool_decide.
  - rewrite list_elem_of_singleton. naive_solver.
  - rewrite elem_of_nil. naive_solver lia.
Qed.

(** No control of the generated form is among those of the collector. *)
Lemma render_creator_elem st c :
  c ∈ render_creator st →
  match c with
  | ValueInput _ _ | RemoveButton _ | MoveButton _ _ _
  | ValueMessage _ _ | SubmitButton => False
  | _ => True
  end.
Proof.
  unfold render_creator. rewrite !elem_of_app, !elem_of_message.
  rewrite !list_elem_of_singleton, list_elem_of_fmap.
  intros H. destruct c; try done; naive_solver.
Qed.

Lemma remove_button_offered st index :
  RemoveButton index ∈ render st ↔ index < length (inputs st).
Proof.
  unfold render. rewrite elem_of_app, elem_of_render_created. split.
  - intros [H%render_creator_elem|[(i & input & Hlook & Hc)|[_ ?]]]; try done.
    apply elem_of_render_row in Hc as [?|[?|[[_ ?]|(? & _ & ?)]]];
      try done; simplify_eq.
    by apply lookup_lt_Some in Hlook.
  - intros [input Hlook]%lookup_lt_is_Some. right. left.
    exists index, input. split; [done|]. apply elem_of_render_row. auto.
Qed.

Lemma value_input_offered st index t :
  ValueInput index t ∈ render st ↔
    ∃ input, inputs st !! index = Some input ∧ type input = t.
Proof.
  unfold render. rewrite elem_of_app, elem_of_render_created. split.
  - intros [H%render_creator_elem|[(i & input & Hlook & Hc)|[_ ?]]]; try done.
    apply elem_of_render_row in Hc as [?|[?|[[_ ?]|(? & _ & ?)]]];
      try done; simplify_eq. eauto.
  - intros (input & Hlook & <-). right. left.
    exists index, input. split; [done|]. apply elem_of_render_row. auto.
Qed.

Lemma move_button_offered st c indexA indexB :
  MoveButton c indexA indexB ∈ render st ↔
    1 < length (inputs st) ∧ indexA < length (inputs st)
    ∧ MoveButton c indexA indexB = move_button (inputs st) indexA.
Proof.
  unfold render. rewrite elem_of_app, elem_of_render_created. split.
  - intros [H%render_creator_elem|[(i & input & Hlook & Hc)|[_ ?]]]; try done.
    apply lookup_lt_Some in Hlook.
    apply elem_of_render_row in Hc as [?|[?|[[? Hc]|(? & _ & ?)]]]; try done.
    unfold move_button in *. simplify_eq. auto.
  - intros (Hlen & [input Hlook]%lookup_lt_is_Some & ->). right. left.
    exists indexA, input. split; [done|]. apply elem_of_render_row. auto.
Qed.

Lemma submit_button_offered st :
  SubmitButton ∈ render st ↔ 0 < length (inputs st).
Proof.
  unfold render. rewrite elem_of_app, elem_of_render_created. split.
  - intros [H%render_creator_elem|[(i & input & Hlook & Hc)|[? _]]]; try done.
    apply elem_of_render_row in Hc as [?|[?|[[_ ?]|(? & _ & ?)]]]; done.
  - auto.
Qed.

(** ** The field-array methods inside the array *)

Lemma swap_exchanged {A} (l : list A) a b :
  a < length l → b < length l →
  ∃ l', FieldArray.swap l a b = Some l' ∧ exchanged l l' a b.
Proof.
  intros Ha Hb.
  destruct (lookup_lt_is_Some_2 l a Ha) as [x Hx].
  destruct (lookup_lt_is_Some_2 l b Hb) as [y Hy].
  exists (<[a := y]> (<[b := x]> l)). split.
  { unfold FieldArray.swap. by rewrite Hx, Hy. }
  repeat split.
  - by rewrite !length_insert.
  - rewrite list_lookup_insert_eq, Hy; [done|]. by rewrite length_insert.
  - destruct (decide (a = b)) as [->|Hne].
    + rewrite list_lookup_insert_eq, Hx; [congruence|]. by rewrite length_insert.
    + rewrite list_lookup_insert_ne by done.
      by rewrite list_lookup_insert_eq, Hx.
  - intros i Hia Hib. by rewrite !list_lookup_insert_ne.
Qed.

Lemma remove_deleted {A} (l : list A) i :
  i < length l →
  ∃ l', FieldArray.remove l i = Some l'
        ∧ l' = take i l ++ drop (S i) l
        ∧ deleted_at l l' i.
Proof.
  intros Hi. destruct (lookup_lt_is_Some_2 l i Hi) as [x Hx].
  exists (delete i l). split; [|split].
  - unfold FieldArray.remove. by rewrite Hx.
  - apply delete_take_drop.
  - repeat split.
    + rewrite length_delete by eauto. lia.
    + intros j Hj. by apply list_lookup_delete_lt.
    + intros j Hj. by apply list_lookup_delete_ge.
Qed.

(** ** The schema of the generated form *)

Lemma string_min1_None s : Zod.string_min1 s = None ↔ s ≠ "".
Proof. destruct s; cbv; split; intros; congruence. Qed.

Lemma string_min1_Some s i : Zod.string_min1 s = Some i ↔ s = "" ∧ i = Zod.too_small.
Proof. destruct s; cbv; split; [| intros [? ->] | |intros [? ->]]; intros; simplify_eq; done. Qed.

Lemma check_input_ok d : input_ok (check_input d) = true ↔ label d ≠ "".
Proof.
  unfold input_ok, check_input; simpl.
  rewrite andb_true_iff, !bool_decide_eq_true, string_min1_None.
  unfold Zod.string_. naive_solver.
Qed.

Lemma createdFormSchema_accepts l :
  Forall (λ d, label d ≠ "") l →
  createdFormSchema l = inr {| Created.inputs := l |}.
Proof.
  intros Hl. unfold createdFormSchema.
  replace (forallb input_ok (check_input <$> l)) with true; [done|].
  symmetry. apply forallb_forall. intros e He.
  apply list_elem_of_In, list_elem_of_fmap in He as (d & -> & Hd).
  apply check_input_ok. by eapply Forall_forall in Hl.
Qed.


(** ** Every offered event is handled *)

Lemma step_offered_total st ev : offered st ev → is_Some (step st ev).
Proof.
  unfold offered. destruct ev as [c|c s]; destruct c; simpl; eauto.
  - intros Hin%remove_button_offered.
    destruct (remove_deleted (inputs st) index Hin) as (l' & -> & _). simpl. eauto.
  - intros (Hlen & Ha & Heq)%move_button_offered.
    unfold move_button in Heq. simplify_eq.
    edestruct (swap_exchanged (inputs st) indexA) as (l' & -> & _);
      [done| |simpl; eauto].
    case_bool_decide; lia.
  - intros (input & Hlook & _)%value_input_offered.
    unfold updateValue. rewrite Hlook. simpl. eauto.
Qed.

(** ** Labels stay non-empty *)

Lemma inputCreatorSchema_label v data :
  inputCreatorSchema v = inr data →
  v_label v = Some (Creator.label data) ∧ Creator.label data ≠ "".
Proof.
  unfold inputCreatorSchema, Zod.required_string_min1.
  destruct (v_label v) as [s|]; simpl.
  - destruct (Zod.string_min1 s) eqn:Hs; simpl.
    + destruct (Zod.type_union_default (v_type v)); discriminate.
    + destruct (Zod.type_union_default (v_type v)); [discriminate|].
      intros [= <-]. simpl. by apply string_min1_None in Hs.
  - destruct (Zod.type_union_default (v_type v)); discriminate.
Qed.

Lemma step_labels_nonempty st ev st' :
  labels_nonempty (inputs st) → step st ev = Some st' →
  labels_nonempty (inputs st').
Proof.
  unfold labels_nonempty. intros Hinv Hstep.
  destruct ev as [c|c s]; destruct c; simpl in Hstep; simplify_eq; try done;
    try (by unfold_collector).
  - unfold inputCreatorForm_handleSubmit.
    destruct (inputCreatorSchema (creatorValues st)) as [errors|data] eqn:Hparse;
      simpl; [done|].
    apply inputCreatorSchema_label in Hparse as [_ Hne].
    unfold FieldArray.append. apply Forall_app. split; [done|].
    by apply Forall_singleton.
  - unfold FieldArray.remove in Hstep.
    destruct (inputs st !! index); simplify_eq/=.
    by apply Forall_delete.
  - unfold FieldArray.swap in Hstep.
    destruct (inputs st !! indexA) as [a|] eqn:Ha; simplify_eq/=.
    destruct (inputs st !! indexB) as [b|] eqn:Hb; simplify_eq/=.
    apply Forall_insert; [apply Forall_insert; [done|]|].
    + exact (Forall_lookup_1 _ _ _ _ Hinv Ha).
    + exact (Forall_lookup_1 _ _ _ _ Hinv Hb).
  - unfold createdForm_submit, createdForm_handleSubmit.
    destruct (forallb _ _); [|done].
    by destruct (createdFormSchema (inputs st)).
  - unfold updateValue in Hstep.
    destruct (inputs st !! index) as [d|] eqn:Hd; simplify_eq/=.
    apply Forall_insert; [done|]. exact (Forall_lookup_1 _ _ _ _ Hinv Hd).
Qed.

Lemma reachable_labels_nonempty st :
  reachable st → labels_nonempty (inputs st).
Proof.
  induction 1 as [|st ev st' _ IH _ Hstep].
  - by apply Forall_nil.
  - by eapply step_labels_nonempty.
Qed.

(** ** Removing a row *)

(** C5.  On a list of length N > 0, the Remove button of every row i < N is
    on the page, and clicking it leaves the list with the element at i
    deleted: the length is N - 1, the elements before i keep their index and
    those after i move down by one. *)
Theorem remove_deletes_row st i :
  i < length (inputs st) →
  RemoveButton i ∈ render st
  ∧ ∃ st', step st (Click (RemoveButton i)) = Some st'
           ∧ inputs st' = take i (inputs st) ++ drop (S i) (inputs st)
           ∧ deleted_at (inputs st) (inputs st') i.
Proof.
  intros Hi. split; [by apply remove_button_offered|].
  destruct (remove_deleted (inputs st) i Hi) as (l' & Hrm & Heq & Hdel).
  exists (set_inputs st l'). simpl. rewrite Hrm. done.
Qed.

Lemma remove_deletes_row_witness :
  RemoveButton 1 ∈ render (page_with rows_ABC)
  ∧ ∃ st', step (page_with rows_ABC) (Click (RemoveButton 1)) = Some st'
           ∧ inputs st' = take 1 rows_ABC ++ drop 2 rows_ABC
           ∧ deleted_at rows_ABC (inputs st') 1.
Proof. apply (remove_deletes_row (page_with rows_ABC) 1). simpl. lia. Defined.

(** ** Moving a row *)

(** C2.  On a list of length N ≥ 2 the Move button of every row k < N is on
    the page; clicking the one of row 0 exchanges the descriptors at 0 and
    N - 1, clicking the one of a row k > 0 exchanges those at k and k - 1,
    and no other element moves. *)
Theorem move_exchanges_rows st k :
  2 ≤ length (inputs st) → k < length (inputs st) →
  move_button (inputs st) k ∈ render st
  ∧ ∃ st', step st (Click (move_button (inputs st) k)) = Some st'
           ∧ (k = 0 → exchanged (inputs st) (inputs st') 0 (length (inputs st) - 1))
           ∧ (0 < k → exchanged (inputs st) (inputs st') k (k - 1)).
Proof.
  intros HN Hk. split.
  { unfold move_button. apply move_button_offered. split_and!; [lia|done|done]. }
  unfold move_button, step. case_bool_decide as Hk0.
  - subst k.
    destruct (swap_exchanged (inputs st) 0 (length (inputs st) - 1))
      as (l' & Hswap & Hex); [lia..|].
    exists (set_inputs st l'). rewrite Hswap. split_and!; [done|done|lia].
  - destruct (swap_exchanged (inputs st) k (k - 1))
      as (l' & Hswap & Hex); [lia..|].
    exists (set_inputs st l'). rewrite Hswap. split_and!; [done|lia|done].
Qed.

Lemma move_exchanges_rows_witness :
  move_button rows_ABC 0 ∈ render (page_with rows_ABC)
  ∧ ∃ st', step (page_with rows_ABC) (Click (move_button rows_ABC 0)) = Some st'
           ∧ (0 = 0 → exchanged rows_ABC (inputs st') 0 (length rows_ABC - 1))
           ∧ (0 < 0 → exchanged rows_ABC (inputs st') 0 (0 - 1)).
Proof.
  apply (move_exchanges_rows (page_with rows_ABC) 0); simpl; lia.
Defined.

(** The scenario of the specification: on [A, B, C] the Move button of the
    first row gives [C, B, A]. *)
Example move_first_of_three :
  inputs <$> step (page_with rows_ABC) (Click (move_button rows_ABC 0))
  = Some [row "C" "3" number; row "B" "" email; row "A" "1" text].
Proof. reflexivity. Qed.

(** C7.  A Move button is on the page exactly when the list has at least two
    elements (and the button is the one of a rendered row); with exactly one
    element no Move button is offered. *)
Theorem move_needs_two_rows st :
  (∀ c a b, MoveButton c a b ∈ render st →
            2 ≤ length (inputs st) ∧ a < length (inputs st)
            ∧ b < length (inputs st))
  ∧ (length (inputs st) = 1 → ∀ c a b, MoveButton c a b ∉ render st)
  ∧ (2 ≤ length (inputs st) →
     ∀ k, k < length (inputs st) → move_button (inputs st) k ∈ render st).
Proof.
  split_and!.
  - intros c a b (Hlen & Ha & Heq)%move_button_offered.
    unfold move_button in Heq. simplify_eq.
    split_and!; [lia|done|]. case_bool_decide; lia.
  - intros Hone c a b (Hlen & _)%move_button_offered. lia.
  - intros Hlen k Hk. unfold move_button. apply move_button_offered.
    split_and!; [lia|done|done].
Qed.

Lemma move_needs_two_rows_witness :
  length (inputs (page_with [row "A" "1" text])) = 1
  ∧ ∀ c a b, MoveButton c a b ∉ render (page_with [row "A" "1" text]).
Proof.
  split; [reflexivity|].
  apply (proj1 (proj2 (move_needs_two_rows (page_with [row "A" "1" text])))).
  reflexivity.
Defined.

(** ** Submitting the generated form *)

(** C10.  The Submit button is on the page only when the list is non-empty;
    on the empty list no control of the generated form is rendered at all,
    and no offered event adds a toast. *)
Theorem no_submit_on_empty_list st :
  (SubmitButton ∈ render st → inputs st ≠ [])
  ∧ (inputs st = [] →
     render_created st = []
     ∧ ∀ ev st', offered st ev → step st ev = Some st' → toasts st' = toasts st).
Proof.
  split.
  - intros Hin%submit_button_offered Hnil. rewrite Hnil in Hin. simpl in Hin. lia.
  - intros Hnil. split.
    { unfold render_created. by rewrite Hnil. }
    intros ev st' Hoff Hstep.
    destruct ev as [c|c s]; destruct c; simpl in Hstep; simplify_eq; try done;
      try (by unfold_collector).
    + unfold inputCreatorForm_handleSubmit.
      by destruct (inputCreatorSchema (creatorValues st)).
    + by destruct (FieldArray.remove (inputs st) index); simplify_eq/=.
    + by destruct (FieldArray.swap (inputs st) indexA indexB); simplify_eq/=.
    + apply submit_button_offered in Hoff. rewrite Hnil in Hoff. simpl in Hoff. lia.
    + by destruct (updateValue (inputs st) index s); simplify_eq/=.
Qed.

Lemma no_submit_on_empty_list_witness :
  render_created initial = []
  ∧ ∀ ev st', offered initial ev → step initial ev = Some st' →
              toasts st' = toasts initial.
Proof. apply (proj2 (no_submit_on_empty_list initial)). reflexivity. Defined.

(** ** The collector *)

Lemma type_union_literal t : Zod.type_union (literal t) = inr t.
Proof. by destruct t. Qed.

Lemma type_union_invalid s :
  (∀ t, literal t ≠ s) → Zod.type_union s = inl Zod.invalid_union.
Proof.
  intros Hs. unfold Zod.type_union.
  destruct (list_find _ _) as [[i t]|] eqn:Hfind; [|done].
  apply list_find_Some in Hfind as (_ & Heq & _). by destruct (Hs t).
Qed.


Lemma label_message_offered st issue :
  e_label (creatorErrors st) = Some issue → LabelMessage issue ∈ render st.
Proof.
  intros Hissue. unfold render, render_creator.
  rewrite !elem_of_app, elem_of_message. eauto 10.
Qed.

Lemma type_message_offered st issue :
  e_type (creatorErrors st) = Some issue → TypeMessage issue ∈ render st.
Proof.
  intros Hissue. unfold render, render_creator.
  rewrite !elem_of_app, !elem_of_message. eauto 10.
Qed.

(** What [inputCreatorSchema] returns once the label is a non-empty string
    and the type parses. *)
Lemma inputCreatorSchema_accepts v L t :
  v_label v = Some L → L ≠ "" → Zod.type_union_default (v_type v) = inr t →
  inputCreatorSchema v
  = inr {| Creator.label := L; Creator.defaultValue := v_defaultValue v;
           Creator.type := t |}.
Proof.
  intros HL Hne Ht. unfold inputCreatorSchema, Zod.required_string_min1.
  rewrite HL, Ht. apply string_min1_None in Hne. by rewrite Hne.
Qed.



(** C4.  With an empty label, whether never typed or typed and erased,
    clicking Add leaves the list, and everything else but the collector's
    errors, as it was, and a message is rendered at the label field. *)
Theorem empty_label_rejected st :
  v_label (creatorValues st) = None ∨ v_label (creatorValues st) = Some "" →
  ∃ st' issue,
    step st (Click AddButton) = Some st'
    ∧ inputs st' = inputs st
    ∧ createdErrors st' = createdErrors st
    ∧ toasts st' = toasts st
    ∧ creatorValues st' = creatorValues st
    ∧ e_label (creatorErrors st') = Some issue
    ∧ LabelMessage issue ∈ render st'.
Proof.
  intros Hlabel.
  assert (∃ issue errors,
            inputCreatorSchema (creatorValues st) = inl errors
            ∧ e_label errors = Some issue) as (issue & errors & Hparse & Hissue).
  { unfold inputCreatorSchema, Zod.required_string_min1.
    destruct Hlabel as [->| ->]; simpl;
      destruct (Zod.type_union_default _); simpl; eauto. }
  exists (inputCreatorForm_handleSubmit st), issue.
  assert (e_label (creatorErrors (inputCreatorForm_handleSubmit st)) = Some issue)
    as Hshown.
  { unfold inputCreatorForm_handleSubmit. by rewrite Hparse. }
  split_and!; [done| | | | |done|by apply label_message_offered];
    unfold inputCreatorForm_handleSubmit; by rewrite Hparse.
Qed.

Lemma empty_label_rejected_witness :
  ∃ st' issue,
    step (page_with rows_ABC) (Click AddButton) = Some st'
    ∧ inputs st' = rows_ABC
    ∧ createdErrors st' = []
    ∧ toasts st' = []
    ∧ creatorValues st' = creatorValues initial
    ∧ e_label (creatorErrors st') = Some issue
    ∧ LabelMessage issue ∈ render st'.
Proof. apply (empty_label_rejected (page_with rows_ABC)). left. reflexivity. Defined.

(** C8.  Once the label is accepted: a default value never given makes the
    new descriptor's value the empty string, a type never given makes its
    type [text], each of the four kinds given as its literal is taken as it
    is, and any other type given is refused: nothing is appended and the
    type field gets an error, shown at the field. *)
Theorem collector_defaults st L :
  v_label (creatorValues st) = Some L → L ≠ "" →
  ∃ st', step st (Click AddButton) = Some st'
  ∧ (v_defaultValue (creatorValues st) = None →
     v_type (creatorValues st) = None →
     inputs st' = inputs st ++ [row L "" text])
  ∧ (∀ t, v_defaultValue (creatorValues st) = None →
          v_type (creatorValues st) = Some (literal t) →
          inputs st' = inputs st ++ [row L "" t])
  ∧ (∀ D, v_defaultValue (creatorValues st) = Some D →
          v_type (creatorValues st) = None →
          inputs st' = inputs st ++ [row L D text])
  ∧ (∀ D t, v_defaultValue (creatorValues st) = Some D →
            v_type (creatorValues st) = Some (literal t) →
            inputs st' = inputs st ++ [row L D t])
  ∧ (∀ s, v_type (creatorValues st) = Some s →
          (∀ t, literal t ≠ s) →
          inputs st' = inputs st
          ∧ e_type (creatorErrors st') = Some Zod.invalid_literal
          ∧ TypeMessage Zod.invalid_literal ∈ render st')
  ∧ (∀ s, v_type (creatorValues st) = Some s →
          inputs st' ≠ inputs st → ∃ t, t ∈ INPUT_TYPES ∧ literal t = s).
Proof.
  intros HL Hne. exists (inputCreatorForm_handleSubmit st).
  split; [done|].
  assert (∀ t, Zod.type_union_default (v_type (creatorValues st)) = inr t →
            inputs (inputCreatorForm_handleSubmit st)
            = inputs st ++ [row L (default "" (v_defaultValue (creatorValues st))) t])
    as Haccept.
  { intros t Ht. unfold inputCreatorForm_handleSubmit.
    by rewrite (inputCreatorSchema_accepts _ L t). }
  split_and!.
  - intros HD Ht. rewrite (Haccept text), HD; [done|]. by rewrite Ht.
  - intros t HD Ht. rewrite (Haccept t), HD; [done|].
    rewrite Ht. apply type_union_literal.
  - intros D HD Ht. rewrite (Haccept text), HD; [done|]. by rewrite Ht.
  - intros D t HD Ht. rewrite (Haccept t), HD; [done|].
    rewrite Ht. apply type_union_literal.
  - intros s Hs Hbad.
    assert (inputCreatorSchema (creatorValues st)
            = inl {| e_label := None; e_defaultValue := None;
                     e_type := Some Zod.invalid_literal |}) as Hparse.
    { unfold inputCreatorSchema, Zod.required_string_min1.
      rewrite HL, Hs. simpl. rewrite (type_union_invalid s Hbad).
      apply string_min1_None in Hne. by rewrite Hne. }
    assert (e_type (creatorErrors (inputCreatorForm_handleSubmit st))
            = Some Zod.invalid_literal) as Herr.
    { unfold inputCreatorForm_handleSubmit. by rewrite Hparse. }
    split_and!; [|done|by apply type_message_offered].
    unfold inputCreatorForm_handleSubmit. by rewrite Hparse.
  - intros s Hs Hchanged.
    destruct (Zod.type_union s) as [i|t] eqn:Hparse.
    + exfalso. apply Hchanged. unfold inputCreatorForm_handleSubmit.
      unfold inputCreatorSchema, Zod.required_string_min1.
      rewrite HL, Hs. simpl. rewrite Hparse. by destruct (Zod.string_min1 L).
    + exists t. unfold Zod.type_union in Hparse.
      destruct (list_find _ _) as [[i t']|] eqn:Hfind; simplify_eq.
      apply list_find_Some in Hfind as (Hlook & Heq & _).
      split; [|done]. by eapply list_elem_of_lookup_2.
Qed.

Lemma collector_defaults_witness :
  ∃ st', step (typed initial (Some "Name") None None) (Click AddButton) = Some st'
         ∧ inputs st' = [] ++ [row "Name" "" text].
Proof.
  destruct (collector_defaults (typed initial (Some "Name") None None) "Name")
    as (st' & Hstep & Hboth & _); [reflexivity|discriminate|].
  exists st'. split; [exact Hstep|]. apply Hboth; reflexivity.
Defined.

(** The refused type evaluated: a type that is none of the four literals
    leaves the list alone and puts [invalid_literal] on the type field. *)
Example collector_refuses_other_type :
  let st := inputCreatorForm_handleSubmit
              (typed initial (Some "Name") None (Some "date")) in
  inputs st = [] ∧ creatorErrors st
    = {| e_label := None; e_defaultValue := None;
         e_type := Some Zod.invalid_literal |}.
Proof. done. Qed.

(** ** What submit hands over *)

Lemma submit_accepted st :
  labels_nonempty (inputs st) →
  createdForm_handleSubmit st
  = onCreatedFormSubmit {| Created.inputs := inputs st |} (set_createdErrors st []).
Proof.
  intros Hl. unfold createdForm_handleSubmit.
  by rewrite createdFormSchema_accepts.
Qed.


Lemma submit_inputs st : inputs (createdForm_handleSubmit st) = inputs st.
Proof.
  unfold createdForm_handleSubmit. by destruct (createdFormSchema (inputs st)).
Qed.


Lemma value_message_offered st index issue :
  ValueMessage index issue ∈ render st →
  createdErrors st !! index ≫= e_input_value = Some issue.
Proof.
  unfold render. rewrite elem_of_app, elem_of_render_created.
  intros [H%render_creator_elem|[(i & input & Hlook & Hc)|[_ ?]]]; try done.
  apply elem_of_render_row in Hc as [?|[?|[[_ ?]|(? & ? & ?)]]];
    try done; by simplify_eq.
Qed.

Lemma submit_passes st :
  browser_passes (inputs st) → createdForm_submit st = createdForm_handleSubmit st.
Proof. unfold createdForm_submit, browser_passes. by intros ->. Qed.

Lemma submit_held_back st :
  ¬ browser_passes (inputs st) → createdForm_submit st = st.
Proof.
  unfold createdForm_submit, browser_passes.
  by destruct (forallb Browser.native_valid (inputs st)).
Qed.

Lemma createdForm_submit_inputs st : inputs (createdForm_submit st) = inputs st.
Proof.
  unfold createdForm_submit. destruct (forallb _ _); [apply submit_inputs|done].
Qed.







(** ** The controls of the generated form and the rows *)

(** X1.  The controls of the generated form follow the rows: the value input
    of row i is there with the row's type exactly when the row exists, its
    Remove button exactly when i is below the length, the Submit button
    exactly when the list is non-empty.  A Move button always names two
    different positions of the array, and says "Move down" exactly on the
    first row.  So no offered event uses a position outside the array. *)
Theorem rendered_controls_match_rows st :
  (∀ i t, ValueInput i t ∈ render st
          ↔ ∃ d, inputs st !! i = Some d ∧ type d = t)
  ∧ (∀ i, RemoveButton i ∈ render st ↔ i < length (inputs st))
  ∧ (∀ c a b, MoveButton c a b ∈ render st →
              a < length (inputs st) ∧ b < length (inputs st) ∧ a ≠ b
              ∧ (c = MoveDown ↔ a = 0))
  ∧ (SubmitButton ∈ render st ↔ inputs st ≠ [])
  ∧ (∀ ev, offered st ev → is_Some (step st ev)).
Proof.
  split_and!.
  - apply value_input_offered.
  - apply remove_button_offered.
  - intros c a b (Hlen & Ha & Heq)%move_button_offered.
    unfold move_button in Heq. simplify_eq.
    case_bool_decide; split_and!; try lia; naive_solver.
  - rewrite submit_button_offered. destruct (inputs st); simpl; [|split; [done|lia]].
    split; [lia|done].
  - apply step_offered_total.
Qed.

Lemma elem_of_render_creator st c :
  c ∈ render_creator st ↔
    c = LabelInput
    ∨ (∃ i, e_label (creatorErrors st) = Some i ∧ c = LabelMessage i)
    ∨ c = DefaultValueInput
    ∨ (∃ i, e_defaultValue (creatorErrors st) = Some i ∧ c = DefaultValueMessage i)
    ∨ (∃ t, c = TypeRadio t ∧ t ∈ INPUT_TYPES)
    ∨ (∃ i, e_type (creatorErrors st) = Some i ∧ c = TypeMessage i)
    ∨ c = AddButton.
Proof.
  unfold render_creator.
  rewrite !elem_of_app, !elem_of_message, !list_elem_of_singleton, list_elem_of_fmap.
  naive_solver.
Qed.

Lemma render_created_generated st c :
  c ∈ render_created st → of_generated_form c = true.
Proof.
  intros [(i & d & _ & Hrow)|[_ ->]]%elem_of_render_created; [|done].
  apply elem_of_render_row in Hrow as [->|[->|[[_ ->]|(? & _ & ->)]]]; done.
Qed.

Lemma render_creator_collector st c :
  c ∈ render_creator st → of_generated_form c = false.
Proof. intros H%render_creator_elem. by destruct c. Qed.

(** ** What holds of every reachable page *)

Lemma type_from_radio_parses v :
  type_from_radio v → ∃ t, Zod.type_union_default (v_type v) = inr t.
Proof.
  intros [->|[t ->]]; simpl; [by exists text|].
  exists t. apply type_union_literal.
Qed.

Lemma inputCreatorSchema_errors v errors :
  inputCreatorSchema v = inl errors →
  e_label errors = issue_of (Zod.required_string_min1 (v_label v))
  ∧ e_defaultValue errors = None
  ∧ e_type errors = issue_of (Zod.type_union_default (v_type v)).
Proof.
  unfold inputCreatorSchema, Zod.string_optional.
  destruct (Zod.required_string_min1 _), (Zod.type_union_default _);
    intros; by simplify_eq.
Qed.

Lemma resolver_errors_defaultValue v : e_defaultValue (resolver_errors v) = None.
Proof.
  unfold resolver_errors.
  destruct (inputCreatorSchema v) as [errors|data] eqn:Hparse; [|done].
  by apply inputCreatorSchema_errors in Hparse as (_ & ? & _).
Qed.

Lemma resolver_errors_type v :
  type_from_radio v → e_type (resolver_errors v) = None.
Proof.
  intros [t Ht]%type_from_radio_parses. unfold resolver_errors.
  destruct (inputCreatorSchema v) as [errors|data] eqn:Hparse; [|done].
  apply inputCreatorSchema_errors in Hparse as (_ & _ & ->). by rewrite Ht.
Qed.

Lemma step_page_inv st ev st' :
  page_inv st → step st ev = Some st' → page_inv st'.
Proof.
  intros (Hlabels & Herrs & Htype & Hetype & Hedef) Hstep.
  split; [by eapply step_labels_nonempty|].
  destruct ev as [c|c s]; destruct c; simpl in Hstep; simplify_eq;
    try (by split_and!).
  - unfold onRadioClick. case_decide; [by split_and!|].
    assert (type_from_radio
              {| v_label := v_label (creatorValues st);
                 v_defaultValue := v_defaultValue (creatorValues st);
                 v_type := Some (literal t) |}) as Hnew.
    { right. by eexists. }
    unfold onChange_type. simpl. destruct (creatorSubmitted st); simpl.
    + split_and!; [done|done| |done]. by apply resolver_errors_type.
    + by split_and!.
  - unfold inputCreatorForm_handleSubmit.
    destruct (inputCreatorSchema (creatorValues st)) as [errors|data] eqn:Hparse;
      simpl.
    + apply inputCreatorSchema_errors in Hparse as (_ & Hd & Ht).
      destruct (type_from_radio_parses _ Htype) as [t Hparse].
      rewrite Hparse in Ht. by split_and!.
    + split_and!; try done. right. by exists text.
  - by destruct (FieldArray.remove _ _); simplify_eq/=.
  - by destruct (FieldArray.swap _ _ _); simplify_eq/=.
  - unfold createdForm_submit. destruct (forallb _ _); [|by split_and!].
    unfold createdForm_handleSubmit.
    rewrite createdFormSchema_accepts by done. by split_and!.
  - unfold onChange_label. destruct (creatorSubmitted st); by split_and!.
  - unfold onChange_defaultValue. destruct (creatorSubmitted st); simpl.
    + split_and!; [done|done|done|]. apply resolver_errors_defaultValue.
    + by split_and!.
  - by destruct (updateValue _ _ _); simplify_eq/=.
Qed.

Lemma reachable_page_inv st : reachable st → page_inv st.
Proof.
  induction 1 as [|st ev st' _ IH _ Hstep].
  - split; [by apply Forall_nil|]. split; [done|]. split; [|done].
    right. by exists text.
  - by eapply step_page_inv.
Qed.

Lemma run_reachable st evs st' :
  reachable st → run st evs = Some st' → reachable st'.
Proof.
  revert st. induction evs as [|ev evs IH]; intros st Hst Hrun; simpl in Hrun.
  - by simplify_eq.
  - case_decide as Hoff; [|done].
    destruct (step st ev) as [st1|] eqn:Hstep; [|done].
    eapply IH; [|done]. by eapply reachable_step.
Qed.

Lemma scenario_reachable : reachable scenario_page.
Proof.
  apply (run_reachable initial scenario); [apply reachable_initial|reflexivity].
Defined.

(** X2.  On every page a user can reach, each descriptor has a non-empty
    label, the generated form holds no validation error, and the collector
    holds no error on its type or default value. *)
Theorem reachable_page_wellformed st :
  reachable st →
  Forall (λ d, label d ≠ "") (inputs st)
  ∧ createdErrors st = []
  ∧ e_type (creatorErrors st) = None
  ∧ e_defaultValue (creatorErrors st) = None
  ∧ (v_type (creatorValues st) = None
     ∨ ∃ t, t ∈ INPUT_TYPES ∧ v_type (creatorValues st) = Some (literal t)).
Proof.
  intros (Hl & He & Ht & Het & Hed)%reachable_page_inv.
  split_and!; try done.
  destruct Ht as [?|[t ?]]; [by left|right].
  exists t. split; [|done]. unfold INPUT_TYPES.
  destruct t; rewrite !elem_of_cons; auto.
Qed.

Lemma reachable_page_wellformed_witness :
  Forall (λ d, label d ≠ "") (inputs scenario_page)
  ∧ createdErrors scenario_page = [].
Proof.
  destruct (reachable_page_wellformed scenario_page scenario_reachable)
    as (Hl & He & _).
  split; [exact Hl|exact He].
Defined.

(** X3.  On every reachable page the schema never stands in the way of a
    submit.  A click on Submit leaves the list, the collector and the
    (empty) errors of the generated form as they were, and either changes
    nothing, the browser holding the submit back, or adds exactly one toast
    with the current inputs.  It does add the toast when the browser finds
    every row in order (rows whose value may hide unreadable number text
    left out). *)
Theorem reachable_submit_succeeds st :
  reachable st → SubmitButton ∈ render st →
  ∃ st', step st (Click SubmitButton) = Some st'
         ∧ inputs st' = inputs st
         ∧ createdErrors st' = []
         ∧ creatorValues st' = creatorValues st
         ∧ creatorErrors st' = creatorErrors st
         ∧ (st' = st ∨ toasts st' = toasts st ++ [answers (inputs st)])
         ∧ (browser_passes (inputs st) → no_empty_number (inputs st) →
            toasts st' = toasts st ++ [answers (inputs st)]).
Proof.
  intros (Hl & Herrs & _)%reachable_page_inv _.
  exists (createdForm_submit st). split; [done|].
  destruct (decide (browser_passes (inputs st))) as [Hpass|Hblock].
  - rewrite submit_passes, submit_accepted by done.
    split_and!; try done. by right.
  - rewrite submit_held_back by done.
    split_and!; try done. by left.
Qed.

Lemma reachable_submit_succeeds_witness :
  ∃ st', step scenario_page (Click SubmitButton) = Some st'
         ∧ toasts st' = [] ++ [answers (inputs scenario_page)].
Proof.
  destruct (reachable_submit_succeeds scenario_page scenario_reachable)
    as (st' & Hstep & _ & _ & _ & _ & _ & Htoasts).
  - apply submit_button_offered. simpl. lia.
  - exists st'. split; [exact Hstep|]. apply Htoasts.
    + reflexivity.
    + unfold no_empty_number. simpl. repeat constructor; discriminate.
Defined.

(** X4.  The only validation message a reachable page can show is the one
    at the collector's label: no message is ever rendered at the default
    value, at the type, or at a value of the generated form. *)
Theorem only_label_message st :
  reachable st →
  (∀ i, DefaultValueMessage i ∉ render st)
  ∧ (∀ i, TypeMessage i ∉ render st)
  ∧ (∀ index i, ValueMessage index i ∉ render st).
Proof.
  intros (_ & He & _ & Het & Hed)%reachable_page_inv.
  split_and!.
  - intros i. unfold render. rewrite elem_of_app, elem_of_render_creator.
    intros [Hc|Hc%render_created_generated]; [|done].
    destruct Hc as [?|[(? & ? & ?)|[?|[(? & ? & ?)|[(? & ? & ?)|[(? & ? & ?)|?]]]]]];
      simplify_eq; congruence.
  - intros i. unfold render. rewrite elem_of_app, elem_of_render_creator.
    intros [Hc|Hc%render_created_generated]; [|done].
    destruct Hc as [?|[(? & ? & ?)|[?|[(? & ? & ?)|[(? & ? & ?)|[(? & ? & ?)|?]]]]]];
      simplify_eq; congruence.
  - intros index i Hin%value_message_offered. by rewrite He in Hin.
Qed.

Lemma only_label_message_witness :
  (∀ i, DefaultValueMessage i ∉ render scenario_page)
  ∧ (∀ i, TypeMessage i ∉ render scenario_page)
  ∧ (∀ index i, ValueMessage index i ∉ render scenario_page).
Proof. apply (only_label_message scenario_page scenario_reachable). Defined.

(** ** How the handlers compose *)

Lemma set_inputs_same st : set_inputs st (inputs st) = st.
Proof. by destruct st. Qed.

Lemma swap_involutive {A} (l l' : list A) a b :
  FieldArray.swap l a b = Some l' → FieldArray.swap l' a b = Some l.
Proof.
  unfold FieldArray.swap.
  destruct (l !! a) as [x|] eqn:Hx; [|done].
  destruct (l !! b) as [y|] eqn:Hy; [|done].
  intros [= <-].
  pose proof (lookup_lt_Some _ _ _ Hx) as Ha.
  pose proof (lookup_lt_Some _ _ _ Hy) as Hb.
  assert (<[a:=y]> (<[b:=x]> l) !! a = Some y) as ->.
  { apply list_lookup_insert_eq. by rewrite length_insert. }
  assert (<[a:=y]> (<[b:=x]> l) !! b = Some x) as ->.
  { destruct (decide (a = b)) as [->|Hne].
    - rewrite list_lookup_insert_eq by (by rewrite length_insert). congruence.
    - rewrite list_lookup_insert_ne by done. by apply list_lookup_insert_eq. }
  f_equal. apply list_eq. intros i.
  destruct (decide (i = a)) as [->|Hia].
  { rewrite list_lookup_insert_eq; [done|]. by rewrite !length_insert. }
  rewrite list_lookup_insert_ne by done.
  destruct (decide (i = b)) as [->|Hib].
  { rewrite list_lookup_insert_eq; [done|]. by rewrite !length_insert. }
  by rewrite !list_lookup_insert_ne.
Qed.

Lemma swap_Permutation {A} (l l' : list A) a b :
  FieldArray.swap l a b = Some l' → l' ≡ₚ l.
Proof.
  intros Hswap.
  assert (a < length l ∧ b < length l) as [Ha Hb].
  { unfold FieldArray.swap in Hswap.
    destruct (l !! a) eqn:Hx; [|done]. destruct (l !! b) eqn:Hy; [|done].
    split; by eapply lookup_lt_Some. }
  destruct (swap_exchanged l a b Ha Hb) as (l'' & Hswap' & Hlen & Hab & Hba & Hrest).
  simplify_eq. apply Permutation_inj. split; [done|].
  exists (λ i, if decide (i = a) then b else if decide (i = b) then a else i).
  split.
  - intros i j. repeat case_decide; intros; simplify_eq; done.
  - intros i. repeat case_decide; simplify_eq; auto.
Qed.

(** X5.  Clicking the Move button of the same row twice brings the page
    back to exactly what it was. *)
Theorem move_twice_restores st k :
  2 ≤ length (inputs st) → k < length (inputs st) →
  ∃ st1, step st (Click (move_button (inputs st) k)) = Some st1
         ∧ move_button (inputs st1) k = move_button (inputs st) k
         ∧ move_button (inputs st1) k ∈ render st1
         ∧ step st1 (Click (move_button (inputs st1) k)) = Some st.
Proof.
  intros HN Hk.
  destruct (move_button_offered st
              (if bool_decide (k = 0) then MoveDown else MoveUp) k
              (if bool_decide (k = 0) then length (inputs st) - 1 else k - 1))
    as [_ Hoff].
  destruct (step_offered_total st (Click (move_button (inputs st) k)))
    as [st1 Hstep].
  { apply Hoff. split_and!; [lia|done|done]. }
  exists st1. split; [done|].
  unfold move_button, step in Hstep.
  destruct (FieldArray.swap (inputs st) k _) as [l'|] eqn:Hswap; [|done].
  injection Hstep as <-. change (inputs (set_inputs st l')) with l'.
  assert (length l' = length (inputs st)) as Hlen.
  { apply Permutation_length. by eapply swap_Permutation. }
  assert (move_button l' k = move_button (inputs st) k) as Hsame.
  { unfold move_button. by rewrite Hlen. }
  rewrite Hsame. split; [done|]. split.
  { rewrite <- Hsame. unfold move_button. apply move_button_offered.
    change (inputs (set_inputs st l')) with l'.
    split_and!; [lia|lia|done]. }
  unfold move_button, step. change (inputs (set_inputs st l')) with l'.
  rewrite (swap_involutive _ _ _ _ Hswap). by destruct st.
Qed.

Lemma move_twice_restores_witness :
  ∃ st1, step (page_with rows_ABC) (Click (move_button rows_ABC 2)) = Some st1
         ∧ move_button (inputs st1) 2 = move_button rows_ABC 2
         ∧ move_button (inputs st1) 2 ∈ render st1
         ∧ step st1 (Click (move_button (inputs st1) 2))
           = Some (page_with rows_ABC).
Proof. apply (move_twice_restores (page_with rows_ABC) 2); simpl; lia. Defined.

(** X6.  A Move only reorders: the list after it is a permutation of the
    list before, and nothing else on the page changes. *)
Theorem move_only_reorders st c a b st' :
  step st (Click (MoveButton c a b)) = Some st' →
  inputs st' ≡ₚ inputs st
  ∧ length (inputs st') = length (inputs st)
  ∧ st' = set_inputs st (inputs st').
Proof.
  simpl. destruct (FieldArray.swap (inputs st) a b) as [l'|] eqn:Hswap;
    intros; simplify_eq/=.
  apply swap_Permutation in Hswap.
  split_and!; [done|by apply Permutation_length|done].
Qed.

Lemma move_only_reorders_witness :
  ∃ st', step (page_with rows_ABC) (Click (MoveButton MoveUp 1 0)) = Some st'
         ∧ inputs st' ≡ₚ rows_ABC.
Proof.
  eexists. split; [reflexivity|].
  apply (move_only_reorders (page_with rows_ABC) MoveUp 1 0). reflexivity.
Defined.

(** X7.  With exactly two rows the two Move buttons do the same thing: each
    leaves the list reversed. *)
Theorem two_rows_moves_agree st :
  length (inputs st) = 2 →
  ∃ st', step st (Click (move_button (inputs st) 0)) = Some st'
         ∧ step st (Click (move_button (inputs st) 1)) = Some st'
         ∧ inputs st' = reverse (inputs st).
Proof.
  intros Hlen. destruct st as [cv ce sub rd l errs ts]; simpl in *.
  destruct l as [|x [|y [|z l]]]; simplify_eq/=.
  eexists. split_and!; reflexivity.
Qed.

Lemma two_rows_moves_agree_witness :
  ∃ st', step scenario_page (Click (move_button (inputs scenario_page) 0)) = Some st'
         ∧ step scenario_page (Click (move_button (inputs scenario_page) 1)) = Some st'
         ∧ inputs st' = reverse (inputs scenario_page).
Proof. apply (two_rows_moves_agree scenario_page). reflexivity. Defined.



(** A number row typed "abc": its field reports the empty string, and that
    is what the form stores. *)
Example number_row_typed_abc :
  inputs <$> step (page_with rows_ABC) (Change (ValueInput 2 number) "abc")
  = Some [row "A" "1" text; row "B" "" email; row "C" "" number].
Proof. by vm_compute. Qed.

(** ** The two forms *)

(** X9.  The two forms do not interfere.  An event on a control of the
    generated form leaves the collector alone: its values, its errors and
    the item the radio group has checked.  An event on a control of the
    collector leaves the generated form's errors and the toasts alone and
    can only extend the list at its end; unless it is a click on Add it
    leaves the list alone too. *)
Theorem forms_do_not_interfere st ev st' :
  step st ev = Some st' →
  (of_generated_form (control_of ev) = true →
   creatorValues st' = creatorValues st
   ∧ creatorErrors st' = creatorErrors st
   ∧ radio st' = radio st)
  ∧ (of_generated_form (control_of ev) = false →
     createdErrors st' = createdErrors st
     ∧ toasts st' = toasts st
     ∧ inputs st `prefix_of` inputs st'
     ∧ (ev ≠ Click AddButton → inputs st' = inputs st)).
Proof.
  intros Hstep.
  destruct ev as [c|c s]; destruct c; simpl in Hstep; simplify_eq;
    (split; [intros Hgen|intros Hcol]); try done;
    try (by unfold_collector).
  - unfold inputCreatorForm_handleSubmit.
    destruct (inputCreatorSchema (creatorValues st)); simpl.
    + done.
    + split_and!; try done. by apply prefix_app_r.
  - by destruct (FieldArray.remove _ _); simplify_eq/=.
  - by destruct (FieldArray.swap _ _ _); simplify_eq/=.
  - unfold createdForm_submit. destruct (forallb _ _); [|done].
    unfold createdForm_handleSubmit.
    by destruct (createdFormSchema (inputs st)).
  - by destruct (updateValue _ _ _); simplify_eq/=.
Qed.

Lemma forms_do_not_interfere_witness :
  creatorValues (set_inputs (page_with rows_ABC) (delete 0 rows_ABC))
  = creatorValues (page_with rows_ABC)
  ∧ creatorErrors (set_inputs (page_with rows_ABC) (delete 0 rows_ABC))
    = creatorErrors (page_with rows_ABC)
  ∧ radio (set_inputs (page_with rows_ABC) (delete 0 rows_ABC))
    = radio (page_with rows_ABC).
Proof.
  apply (forms_do_not_interfere (page_with rows_ABC) (Click (RemoveButton 0)));
    reflexivity.
Defined.

(** X10.  Toasts are only ever added, one at a time, and only by a click on
    Submit; the toast added is the one of the list as it is then. *)
Theorem toasts_only_grow st ev st' :
  step st ev = Some st' →
  toasts st' = toasts st
  ∨ (ev = Click SubmitButton ∧ toasts st' = toasts st ++ [answers (inputs st)]).
Proof.
  intros Hstep.
  destruct ev as [c|c s]; destruct c; simpl in Hstep; simplify_eq;
    try (by left); try (left; by unfold_collector).
  - left. unfold inputCreatorForm_handleSubmit.
    by destruct (inputCreatorSchema (creatorValues st)).
  - left. by destruct (FieldArray.remove _ _); simplify_eq/=.
  - left. by destruct (FieldArray.swap _ _ _); simplify_eq/=.
  - unfold createdForm_submit.
    destruct (forallb Browser.native_valid _); [|by left].
    unfold createdForm_handleSubmit, createdFormSchema.
    destruct (forallb _ _); simpl; [right|left]; done.
  - left. by destruct (updateValue _ _ _); simplify_eq/=.
Qed.

Lemma toasts_only_grow_witness :
  toasts (createdForm_handleSubmit scenario_page) = toasts scenario_page
  ∨ (Click SubmitButton = Click SubmitButton
     ∧ toasts (createdForm_handleSubmit scenario_page)
       = toasts scenario_page ++ [answers (inputs scenario_page)]).
Proof.
  apply (toasts_only_grow scenario_page (Click SubmitButton)). reflexivity.
Defined.

(** X11.  One event changes the length of the list by at most one: only an
    accepted Add makes it longer, only a Remove makes it shorter. *)
Theorem length_changes_by_one st ev st' :
  step st ev = Some st' →
  length (inputs st') = length (inputs st)
  ∨ (ev = Click AddButton ∧ length (inputs st') = S (length (inputs st)))
  ∨ (∃ i, ev = Click (RemoveButton i)
          ∧ S (length (inputs st')) = length (inputs st)).
Proof.
  intros Hstep.
  destruct ev as [c|c s]; destruct c; simpl in Hstep; simplify_eq;
    try (by left); try (left; by unfold_collector).
  - unfold inputCreatorForm_handleSubmit.
    destruct (inputCreatorSchema (creatorValues st)); simpl; [by left|].
    right; left. split; [done|].
    unfold FieldArray.append. rewrite length_app. simpl. lia.
  - right; right. exists index. split; [done|].
    unfold FieldArray.remove in Hstep.
    destruct (inputs st !! index) eqn:Hrow; simplify_eq/=.
    rewrite length_delete by eauto.
    apply lookup_lt_Some in Hrow. lia.
  - left. destruct (FieldArray.swap _ _ _) eqn:Hswap; simplify_eq/=.
    apply Permutation_length. by eapply swap_Permutation.
  - left. f_equal. apply createdForm_submit_inputs.
  - left. unfold updateValue in Hstep.
    destruct (inputs st !! index); simplify_eq/=. apply length_insert.
Qed.

Lemma length_changes_by_one_witness :
  ∃ st', step (page_with rows_ABC) (Click (RemoveButton 0)) = Some st'
         ∧ (length (inputs st') = 3
            ∨ (Click (RemoveButton 0) = Click AddButton ∧ length (inputs st') = 4)
            ∨ (∃ i, Click (RemoveButton 0) = Click (RemoveButton i)
                    ∧ S (length (inputs st')) = 3)).
Proof.
  eexists. split; [reflexivity|].
  apply (length_changes_by_one (page_with rows_ABC) (Click (RemoveButton 0))).
  reflexivity.
Defined.

(** ** Adding in a row *)

Lemma add_accepted st st1 :
  step st (Click AddButton) = Some st1 → inputs st1 ≠ inputs st →
  ∃ data, inputCreatorSchema (creatorValues st) = inr data
          ∧ st1 = onCreateInput data (set_creatorErrors st no_creator_errors).
Proof.
  simpl. unfold inputCreatorForm_handleSubmit. intros [= <-] Hchanged.
  destruct (inputCreatorSchema (creatorValues st)) as [errors|data]; [done|].
  by exists data.
Qed.

(** X12.  After an accepted Add the collector is blank, so a second click
    on Add with nothing typed is rejected: the list is left as the first
    click made it and the label gets a too-small error. *)
Theorem add_twice_rejected st st1 :
  step st (Click AddButton) = Some st1 → inputs st1 ≠ inputs st →
  creatorValues st1 = blank
  ∧ ∃ st2, step st1 (Click AddButton) = Some st2
           ∧ inputs st2 = inputs st1
           ∧ e_label (creatorErrors st2) = Some Zod.too_small
           ∧ LabelMessage Zod.too_small ∈ render st2.
Proof.
  intros Hstep Hchanged.
  destruct (add_accepted _ _ Hstep Hchanged) as (data & _ & ->).
  split; [done|].
  exists (inputCreatorForm_handleSubmit
            (onCreateInput data (set_creatorErrors st no_creator_errors))).
  split; [done|]. split_and!; [done|done|].
  by apply label_message_offered.
Qed.

Lemma add_twice_rejected_witness :
  ∃ st1, step (typed initial (Some "Name") None None) (Click AddButton) = Some st1
         ∧ creatorValues st1 = blank
         ∧ ∃ st2, step st1 (Click AddButton) = Some st2
                  ∧ inputs st2 = inputs st1
                  ∧ e_label (creatorErrors st2) = Some Zod.too_small
                  ∧ LabelMessage Zod.too_small ∈ render st2.
Proof.
  eexists. split; [reflexivity|].
  apply (add_twice_rejected (typed initial (Some "Name") None None));
    [reflexivity|discriminate].
Defined.

(** X13.  The type chosen for one input does not carry over to the next:
    after an accepted Add, typing just a label and clicking Add appends a
    descriptor with that label, the empty value and the type [text],
    whatever the type of the input before. *)
Theorem type_does_not_carry_over st st1 L :
  step st (Click AddButton) = Some st1 → inputs st1 ≠ inputs st → L ≠ "" →
  ∃ st2 st3, step st1 (Change LabelInput L) = Some st2
             ∧ step st2 (Click AddButton) = Some st3
             ∧ inputs st3 = inputs st1 ++ [row L "" text].
Proof.
  intros Hstep Hchanged HL.
  destruct (add_accepted _ _ Hstep Hchanged) as (data & _ & ->).
  eexists _, _. split; [done|]. split; [done|].
  unfold inputCreatorForm_handleSubmit.
  erewrite (inputCreatorSchema_accepts _ L text); done.
Qed.

Lemma type_does_not_carry_over_witness :
  ∃ st1 st2 st3,
    step (typed initial (Some "Age") (Some "0") (Some "number")) (Click AddButton)
    = Some st1
    ∧ step st1 (Change LabelInput "Name") = Some st2
    ∧ step st2 (Click AddButton) = Some st3
    ∧ inputs st3 = [row "Age" "0" number] ++ [row "Name" "" text].
Proof.
  destruct (type_does_not_carry_over
              (typed initial (Some "Age") (Some "0") (Some "number"))
              (inputCreatorForm_handleSubmit
                 (typed initial (Some "Age") (Some "0") (Some "number")))
              "Name")
    as (st2 & st3 & H2 & H3 & Hin); [reflexivity|discriminate|discriminate|].
  eexists _, st2, st3. split; [reflexivity|]. split; [exact H2|].
  split; [exact H3|exact Hin].
Defined.

(** X14.  Removing the row an Add has just appended gives back the list as
    it was before the Add. *)
Theorem add_then_remove_last st st1 :
  step st (Click AddButton) = Some st1 → inputs st1 ≠ inputs st →
  RemoveButton (length (inputs st)) ∈ render st1
  ∧ ∃ st2, step st1 (Click (RemoveButton (length (inputs st)))) = Some st2
           ∧ inputs st2 = inputs st.
Proof.
  intros Hstep Hchanged.
  destruct (add_accepted _ _ Hstep Hchanged) as (data & _ & ->).
  split.
  - apply remove_button_offered. simpl. unfold FieldArray.append.
    rewrite length_app. simpl. lia.
  - simpl. unfold FieldArray.append, FieldArray.remove.
    rewrite list_lookup_middle by done. simpl.
    eexists. split; [done|]. simpl.
    rewrite delete_middle. apply app_nil_r.
Qed.

Lemma add_then_remove_last_witness :
  ∃ st1, step (typed (page_with rows_ABC) (Some "D") None None) (Click AddButton)
         = Some st1
         ∧ RemoveButton 3 ∈ render st1
         ∧ ∃ st2, step st1 (Click (RemoveButton 3)) = Some st2
                  ∧ inputs st2 = rows_ABC.
Proof.
  eexists. split; [reflexivity|].
  apply (add_then_remove_last (typed (page_with rows_ABC) (Some "D") None None));
    [reflexivity|discriminate].
Defined.

(** X15.  Submit does not reset the generated form: the list and its values
    stay, so when a click on Submit has added a toast, a second click right
    after adds the same toast again. *)
Theorem submit_keeps_the_form st st1 :
  step st (Click SubmitButton) = Some st1 → toasts st1 ≠ toasts st →
  inputs st1 = inputs st
  ∧ toasts st1 = toasts st ++ [answers (inputs st)]
  ∧ ∃ st2, step st1 (Click SubmitButton) = Some st2
           ∧ inputs st2 = inputs st
           ∧ toasts st2
             = toasts st ++ [answers (inputs st); answers (inputs st)].
Proof.
  simpl. intros [= <-] Hadded.
  unfold createdForm_submit in *.
  destruct (forallb Browser.native_valid (inputs st)) eqn:Hnative; [|done].
  unfold createdForm_handleSubmit, createdFormSchema in *.
  destruct (forallb input_ok (check_input <$> inputs st)) eqn:Hok; [|done].
  simpl. split; [done|]. split; [done|].
  eexists. split; [done|]. simpl. rewrite Hnative, Hok. simpl.
  split; [done|]. by rewrite <- app_assoc.
Qed.

Lemma submit_keeps_the_form_witness :
  inputs (createdForm_submit scenario_page) = inputs scenario_page
  ∧ toasts (createdForm_submit scenario_page)
    = toasts scenario_page ++ [answers (inputs scenario_page)]
  ∧ ∃ st2, step (createdForm_submit scenario_page) (Click SubmitButton) = Some st2
           ∧ inputs st2 = inputs scenario_page
           ∧ toasts st2
             = toasts scenario_page
               ++ [answers (inputs scenario_page); answers (inputs scenario_page)].
Proof.
  apply (submit_keeps_the_form scenario_page (createdForm_submit scenario_page));
    [reflexivity|discriminate].
Defined.

(** ** The radio group and the errors while typing *)

(** X22.  The radio group is not reset with the form.  After an accepted
    Add the form's type is back at "text" while the group still has checked
    the item it had, and a click on that item changes nothing: the page
    stays exactly as it is, the form's type included. *)
Theorem radio_keeps_its_item st st1 :
  step st (Click AddButton) = Some st1 → inputs st1 ≠ inputs st →
  radio st1 = radio st
  ∧ v_type (creatorValues st1) = Some "text"
  ∧ TypeRadio (radio st1) ∈ render st1
  ∧ step st1 (Click (TypeRadio (radio st1))) = Some st1.
Proof.
  intros Hstep Hchanged.
  destruct (add_accepted _ _ Hstep Hchanged) as (data & _ & ->).
  split; [done|]. split; [done|]. split.
  - unfold render. rewrite elem_of_app, elem_of_render_creator.
    left. do 4 right. left. eexists. split; [done|].
    unfold INPUT_TYPES. destruct (radio _); rewrite !elem_of_cons; auto.
  - simpl. unfold onRadioClick. by rewrite decide_True.
Qed.

Lemma radio_keeps_its_item_witness :
  radio (inputCreatorForm_handleSubmit
           (set_radio (typed initial (Some "Age") (Some "0") (Some "number")) number))
  = number
  ∧ v_type (creatorValues
              (inputCreatorForm_handleSubmit
                 (set_radio (typed initial (Some "Age") (Some "0") (Some "number"))
                            number)))
    = Some "text"
  ∧ TypeRadio
      (radio (inputCreatorForm_handleSubmit
                (set_radio (typed initial (Some "Age") (Some "0") (Some "number"))
                           number)))
    ∈ render (inputCreatorForm_handleSubmit
                (set_radio (typed initial (Some "Age") (Some "0") (Some "number"))
                           number))
  ∧ step (inputCreatorForm_handleSubmit
            (set_radio (typed initial (Some "Age") (Some "0") (Some "number"))
                       number))
         (Click (TypeRadio
                   (radio (inputCreatorForm_handleSubmit
                             (set_radio
                                (typed initial (Some "Age") (Some "0") (Some "number"))
                                number)))))
    = Some (inputCreatorForm_handleSubmit
              (set_radio (typed initial (Some "Age") (Some "0") (Some "number"))
                         number)).
Proof.
  apply (radio_keeps_its_item
           (set_radio (typed initial (Some "Age") (Some "0") (Some "number")) number));
    [reflexivity|discriminate].
Defined.

(** X23.  After a rejected Add the label is validated again while it is
    typed: a non-empty label typed in takes the message at the label away
    at once, without touching the list, and erasing it again brings a
    too-small error back. *)
Theorem label_error_follows_typing st st1 L :
  v_label (creatorValues st) = None ∨ v_label (creatorValues st) = Some "" →
  step st (Click AddButton) = Some st1 → L ≠ "" →
  is_Some (e_label (creatorErrors st1))
  ∧ ∃ st2 st3,
      step st1 (Change LabelInput L) = Some st2
      ∧ e_label (creatorErrors st2) = None
      ∧ (∀ issue, LabelMessage issue ∉ render st2)
      ∧ inputs st2 = inputs st
      ∧ step st2 (Change LabelInput "") = Some st3
      ∧ e_label (creatorErrors st3) = Some Zod.too_small
      ∧ inputs st3 = inputs st.
Proof.
  intros Hlabel [= <-] HL.
  assert (∃ errors, inputCreatorSchema (creatorValues st) = inl errors
                    ∧ is_Some (e_label errors)) as (errors & Hparse & Herr).
  { unfold inputCreatorSchema, Zod.required_string_min1.
    destruct Hlabel as [->| ->]; simpl;
      destruct (Zod.type_union_default _); simpl; eauto. }
  assert (∀ s, e_label
                 (resolver_errors
                    {| v_label := Some s;
                       v_defaultValue := v_defaultValue (creatorValues st);
                       v_type := v_type (creatorValues st) |})
               = Zod.string_min1 s) as Hrevalidate.
  { intros s. unfold resolver_errors, inputCreatorSchema, Zod.required_string_min1.
    unfold Zod.string_min1. simpl.
    destruct (String.length s <? 1)%nat;
      by destruct (Zod.type_union_default _). }
  unfold inputCreatorForm_handleSubmit. rewrite Hparse. simpl.
  split; [done|].
  eexists _, _. split; [done|].
  unfold onChange_label at 1 2 3. simpl. rewrite Hrevalidate.
  apply string_min1_None in HL. rewrite HL.
  split; [done|]. split.
  { intros issue. unfold render. rewrite elem_of_app, elem_of_render_creator.
    intros [Hc|Hc%render_created_generated]; [|done].
    destruct Hc as [?|[(? & ? & ?)|[?|[(? & ? & ?)|[(? & ? & ?)|[(? & ? & ?)|?]]]]]];
      by simplify_eq/=. }
  split; [done|]. split; [done|].
  unfold onChange_label. simpl. rewrite ?Hrevalidate. done.
Qed.

Lemma label_error_follows_typing_witness :
  is_Some (e_label (creatorErrors (inputCreatorForm_handleSubmit initial)))
  ∧ ∃ st2 st3,
      step (inputCreatorForm_handleSubmit initial) (Change LabelInput "Name") = Some st2
      ∧ e_label (creatorErrors st2) = None
      ∧ (∀ issue, LabelMessage issue ∉ render st2)
      ∧ inputs st2 = inputs initial
      ∧ step st2 (Change LabelInput "") = Some st3
      ∧ e_label (creatorErrors st3) = Some Zod.too_small
      ∧ inputs st3 = inputs initial.
Proof.
  apply (label_error_follows_typing initial (inputCreatorForm_handleSubmit initial)
           "Name"); [left; reflexivity|reflexivity|discriminate].
Defined.

(** ** The collector's schema *)

Lemma required_string_min1_inr o L :
  Zod.required_string_min1 o = inr L ↔ o = Some L ∧ L ≠ "".
Proof.
  destruct o as [s|]; simpl; [|naive_solver].
  destruct (Zod.string_min1 s) eqn:Hs.
  - apply string_min1_Some in Hs as [-> _]. naive_solver.
  - apply string_min1_None in Hs. naive_solver.
Qed.

Lemma type_union_default_inr o :
  (∃ t, Zod.type_union_default o = inr t) ↔ type_from_radio (Build_CreatorValues None None o).
Proof.
  unfold type_from_radio. simpl.
  destruct o as [s|]; simpl; [|naive_solver]. split.
  - intros [t Ht]. right. exists t. f_equal. unfold Zod.type_union in Ht.
    destruct (list_find _ _) as [[i t']|] eqn:Hfind; simplify_eq.
    by apply list_find_Some in Hfind as (_ & ? & _).
  - intros [?|[t [= ->]]]; [done|]. exists t. apply type_union_literal.
Qed.

(** X16.  [inputCreatorSchema] accepts exactly when the label is a
    non-empty string and the type is unset or one of the four literals; the
    data then carries the label and the default value as typed.  When it
    rejects, the default value is never blamed and each of label and type
    carries an error exactly when it is the one at fault, both at once if
    both are. *)
Theorem collector_schema_accepts_iff v :
  ((∃ data, inputCreatorSchema v = inr data)
   ↔ (∃ L, v_label v = Some L ∧ L ≠ "") ∧ type_from_radio v)
  ∧ (∀ data, inputCreatorSchema v = inr data →
       v_label v = Some (Creator.label data)
       ∧ Creator.defaultValue data = v_defaultValue v
       ∧ Zod.type_union_default (v_type v) = inr (Creator.type data))
  ∧ (∀ errors, inputCreatorSchema v = inl errors →
       e_defaultValue errors = None
       ∧ (e_label errors = None ↔ ∃ L, v_label v = Some L ∧ L ≠ "")
       ∧ (e_type errors = None ↔ type_from_radio v)).
Proof.
  assert (type_from_radio v ↔ ∃ t, Zod.type_union_default (v_type v) = inr t) as Ht.
  { by rewrite type_union_default_inr. }
  assert ((∃ L, v_label v = Some L ∧ L ≠ "")
          ↔ ∃ L, Zod.required_string_min1 (v_label v) = inr L) as Hl.
  { split; intros [L HL]; exists L; by apply required_string_min1_inr. }
  assert (∀ data, inputCreatorSchema v = inr data →
            v_label v = Some (Creator.label data)
            ∧ Creator.defaultValue data = v_defaultValue v
            ∧ Zod.type_union_default (v_type v) = inr (Creator.type data)) as Hdata.
  { intros data Hparse.
    destruct (inputCreatorSchema_label _ _ Hparse) as [HL _].
    unfold inputCreatorSchema, Zod.string_optional in Hparse.
    destruct (Zod.required_string_min1 (v_label v)),
             (Zod.type_union_default (v_type v)); by simplify_eq/=. }
  split_and!; [|done|].
  - rewrite Hl, Ht. unfold inputCreatorSchema, Zod.string_optional.
    destruct (Zod.required_string_min1 (v_label v)),
             (Zod.type_union_default (v_type v)); simpl;
      (split; [intros [? ?]|intros [[? ?] [? ?]]]); simplify_eq; eauto.
  - intros errors (HeL & Hed & HeT)%inputCreatorSchema_errors.
    rewrite HeL, HeT, Hl, Ht. split; [done|].
    destruct (Zod.required_string_min1 (v_label v)),
             (Zod.type_union_default (v_type v)); simpl;
      (split; (split; [intros ?|intros [? ?]])); simplify_eq; eauto.
Qed.

(** X17.  Parsing a type and writing its literal are inverse to each other:
    a string parses to a type exactly when it is the literal of that type,
    so different types have different literals. *)
Theorem type_union_round_trip :
  (∀ s t, Zod.type_union s = inr t ↔ literal t = s)
  ∧ (∀ t t', literal t = literal t' → t = t').
Proof.
  assert (∀ s t, Zod.type_union s = inr t ↔ literal t = s) as Hiff.
  { intros s t. split.
    - unfold Zod.type_union.
      destruct (list_find _ _) as [[i t']|] eqn:Hfind; intros; simplify_eq.
      by apply list_find_Some in Hfind as (_ & ? & _).
    - intros <-. apply type_union_literal. }
  split; [done|].
  intros t t' Heq. apply Hiff in Heq. rewrite type_union_literal in Heq.
  congruence.
Qed.

(** ** What the toast reads *)

Lemma string_append_nil_r (s : string) : String.append s "" = s.
Proof.
  induction s as [|c s IH]; [done|].
  change (String c (String.append s "") = String c s). by rewrite IH.
Qed.

Lemma string_append_assoc (s1 s2 s3 : string) :
  String.append (String.append s1 s2) s3 = String.append s1 (String.append s2 s3).
Proof.
  induction s1 as [|c s1 IH]; [done|].
  change (String c (String.append (String.append s1 s2) s3)
          = String c (String.append s1 (String.append s2 s3))).
  by rewrite IH.
Qed.

Lemma formatCreatedFormData_cons d l :
  formatCreatedFormData {| Created.inputs := d :: l |}
  = [Strong (label d); Text ": "; Text (value d)]
    ++ concat ((λ d', [Text ", "; Strong (label d'); Text ": "; Text (value d')])
                 <$> l).
Proof.
  unfold formatCreatedFormData. simpl. do 4 f_equal.
  rewrite <- imap_const. by apply imap_ext.
Qed.

Lemma textContent_cons n ns :
  textContent (n :: ns)
  = String.append (match n with Text s => s | Strong s => s end) (textContent ns).
Proof.
  unfold textContent. destruct ns; simpl; [|done].
  by rewrite string_append_nil_r.
Qed.

Lemma length_later_fragments (k : list Input) :
  length (concat ((λ d', [Text ", "; Strong (label d'); Text ": ";
                          Text (value d')]) <$> k)) = 4 * length k.
Proof.
  induction k as [|d' k IH]; [done|].
  rewrite fmap_cons. cbn [concat]. rewrite length_app, IH. simpl. lia.
Qed.

Lemma strongs_later_fragments (k : list Input) :
  strongs (concat ((λ d', [Text ", "; Strong (label d'); Text ": ";
                           Text (value d')]) <$> k)) = label <$> k.
Proof.
  induction k as [|d' k IH]; [done|].
  rewrite !fmap_cons. cbn [concat]. unfold strongs in *.
  rewrite omap_app, IH. done.
Qed.

(** X18.  The paragraph of the toast has one bold label per input, in the
    order of the list, and 4n - 1 children for n inputs: nothing for the
    empty list, and no separator before the first or after the last. *)
Theorem formatCreatedFormData_shape l :
  strongs (formatCreatedFormData {| Created.inputs := l |}) = label <$> l
  ∧ length (formatCreatedFormData {| Created.inputs := l |}) = 4 * length l - 1
  ∧ (formatCreatedFormData {| Created.inputs := l |} = [] ↔ l = []).
Proof.
  destruct l as [|d l]; [done|].
  rewrite formatCreatedFormData_cons. split_and!.
  - unfold strongs. rewrite omap_app. fold (strongs).
    change (strongs (concat ?x)) with (strongs (concat x)).
    rewrite fmap_cons. simpl. f_equal. apply strongs_later_fragments.
  - rewrite length_app, length_later_fragments. simpl. lia.
  - done.
Qed.


(** X19.  The toast reads as the inputs joined by ", ", each input as its
    label, ": " and its value. *)
Theorem formatCreatedFormData_text l :
  textContent (formatCreatedFormData {| Created.inputs := l |})
  = String.concat ", " (entry <$> l).
Proof.
  destruct l as [|d l]; [done|].
  rewrite formatCreatedFormData_cons. revert d.
  induction l as [|d' l IH]; intros d.
  - simpl. unfold textContent, entry. simpl. done.
  - change (String.concat ", " (entry <$> d :: d' :: l))
      with (String.append (entry d)
              (String.append ", " (String.concat ", " (entry <$> d' :: l)))).
    rewrite <- IH. simpl. rewrite !textContent_cons. unfold entry.
    by rewrite !string_append_assoc.
Qed.

(** ** The captions of the type radios *)

Lemma substring_all s : String.substring 0 (String.length s) s = s.
Proof. induction s as [|c s IH]; simpl; [done|by rewrite IH]. Qed.

Lemma capitalizeFirstLetter_String c rest :
  capitalizeFirstLetter (String c rest) = String (upper c) rest.
Proof.
  unfold capitalizeFirstLetter, charAt, slice. simpl.
  assert (String.substring 0 0 rest = "") as -> by by destruct rest.
  by rewrite Nat.sub_0_r, substring_all.
Qed.

Lemma upper_idemp c : upper (upper c) = upper c.
Proof.
  assert (upper c = c
          ∨ (97 ≤ Ascii.nat_of_ascii c ≤ 122
             ∧ upper c = Ascii.ascii_of_nat (Ascii.nat_of_ascii c - 32)))
    as [Heq|[Hlow Heq]].
  { unfold upper. simpl. case_bool_decide; auto. }
  - by rewrite !Heq.
  - rewrite Heq. unfold upper. simpl.
    rewrite Ascii.nat_ascii_embedding by lia.
    by rewrite bool_decide_false by lia.
Qed.

(** X20.  On an ASCII string [capitalizeFirstLetter] changes the first
    character at most: the length and everything from the second character
    on stay, the empty string stays empty, and capitalizing twice is
    capitalizing once. *)
Theorem capitalizeFirstLetter_first_only s :
  ascii_only s →
  String.length (capitalizeFirstLetter s) = String.length s
  ∧ slice (capitalizeFirstLetter s) 1 = slice s 1
  ∧ capitalizeFirstLetter (capitalizeFirstLetter s) = capitalizeFirstLetter s
  ∧ (s = "" → capitalizeFirstLetter s = "").
Proof.
  intros _. destruct s as [|c rest]; [done|].
  rewrite !capitalizeFirstLetter_String, upper_idemp.
  split_and!; try done.
Qed.

Lemma capitalizeFirstLetter_first_only_witness :
  String.length (capitalizeFirstLetter "number") = String.length "number"
  ∧ slice (capitalizeFirstLetter "number") 1 = slice "number" 1
  ∧ capitalizeFirstLetter (capitalizeFirstLetter "number")
    = capitalizeFirstLetter "number"
  ∧ ("number" = "" → capitalizeFirstLetter "number" = "").
Proof.
  apply (capitalizeFirstLetter_first_only "number").
  unfold ascii_only. simpl. repeat constructor.
Defined.

(** X21.  The four radios can be told apart: no two types share an icon or
    a caption, and each caption is the type's literal with its first letter
    in upper case, which differs from the literal. *)
Theorem radio_labels_distinct :
  (∀ t t', InputTypesIcons t = InputTypesIcons t' → t = t')
  ∧ (∀ t t', capitalizeFirstLetter (literal t) = capitalizeFirstLetter (literal t')
             → t = t')
  ∧ (∀ t, capitalizeFirstLetter (literal t) ≠ literal t
          ∧ slice (capitalizeFirstLetter (literal t)) 1 = slice (literal t) 1)
  ∧ radio_label <$> INPUT_TYPES
    = [(PencilLine, "Text"); (Hash, "Number"); (Mail, "Email");
       (AsteriskSquare, "Password")].
Proof.
  split_and!.
  - by intros [] [].
  - by intros [] [].
  - by intros [].
  - done.
Qed.
